(** * xai-go: a shallow embedding of the client core and its specification

    The development follows the Go sources file by file:
    - [errors.go]        error taxonomy, [FromGRPCError], [WrapError];
    - the tools source   [ToolCallInfo], [toolCallFromProto], [Tool];
    - [chat_request.go]  the fluent [ChatRequest] builder and [Build];
    - [chat.go]          [ChunkStream], [GetDeferred], [WaitForDeferred];
    - the models source  catalog entries and the price scaling.

    Go values are modelled as the code has them: integer enums are [Z]
    or [N] constants, strings are [string], nilable pointers and
    interfaces are [option], slices are [list]. *)

From Stdlib Require Import ZArith NArith QArith Lia Bool List.
From Stdlib Require Import Strings.String Strings.Ascii.
From Stdlib Require Import Numbers.DecimalString.
From Stdlib Require Import Floats.SpecFloat.
From stdpp Require Import base option strings gmap.

Open Scope string_scope.
Open Scope Z_scope.

(* ===================================================================== *)
(** ** google.golang.org/grpc/codes *)
(* ===================================================================== *)

(** [codes.Code] is a [uint32]; the seventeen canonical codes are named
    constants and every other number is a legal value of the type. *)
Module codes.
Definition Code := N.

Definition OK                 : Code := 0%N.
Definition Canceled           : Code := 1%N.
Definition Unknown            : Code := 2%N.
Definition InvalidArgument    : Code := 3%N.
Definition DeadlineExceeded   : Code := 4%N.
Definition NotFound           : Code := 5%N.
Definition AlreadyExists      : Code := 6%N.
Definition PermissionDenied   : Code := 7%N.
Definition ResourceExhausted  : Code := 8%N.
Definition FailedPrecondition : Code := 9%N.
Definition Aborted            : Code := 10%N.
Definition OutOfRange         : Code := 11%N.
Definition Unimplemented      : Code := 12%N.
Definition Internal           : Code := 13%N.
Definition Unavailable        : Code := 14%N.
Definition DataLoss           : Code := 15%N.
Definition Unauthenticated    : Code := 16%N.

(** [Code.String]: the canonical name, or [Code(n)] for other numbers. *)
Definition String (c : Code) : string :=
  match c with
  | 0%N => "OK"
  | 1%N => "Canceled"
  | 2%N => "Unknown"
  | 3%N => "InvalidArgument"
  | 4%N => "DeadlineExceeded"
  | 5%N => "NotFound"
  | 6%N => "AlreadyExists"
  | 7%N => "PermissionDenied"
  | 8%N => "ResourceExhausted"
  | 9%N => "FailedPrecondition"
  | 10%N => "Aborted"
  | 11%N => "OutOfRange"
  | 12%N => "Unimplemented"
  | 13%N => "Internal"
  | 14%N => "Unavailable"
  | 15%N => "DataLoss"
  | 16%N => "Unauthenticated"
  | _ => "Code(" +:+ NilEmpty.string_of_uint (N.to_uint c) +:+ ")"
  end.
End codes.

(* ===================================================================== *)
(** ** errors.go *)
(* ===================================================================== *)

(** [type ErrorCode int] with [iota] constants.  Any [int] is a value of
    the type, so the model keeps the integer and names the constants. *)
Definition ErrorCode := Z.

Definition ErrUnknown           : ErrorCode := 0.
Definition ErrAuth              : ErrorCode := 1.
Definition ErrRateLimit         : ErrorCode := 2.
Definition ErrInvalidRequest    : ErrorCode := 3.
Definition ErrNotFound          : ErrorCode := 4.
Definition ErrServerError       : ErrorCode := 5.
Definition ErrUnavailable       : ErrorCode := 6.
Definition ErrTimeout           : ErrorCode := 7.
Definition ErrCanceled          : ErrorCode := 8.
Definition ErrResourceExhausted : ErrorCode := 9.

(** [func (c ErrorCode) String() string] *)
Definition ErrorCode_String (c : ErrorCode) : string :=
  if c =? ErrAuth then "authentication_error"
  else if c =? ErrRateLimit then "rate_limit_error"
  else if c =? ErrInvalidRequest then "invalid_request_error"
  else if c =? ErrNotFound then "not_found_error"
  else if c =? ErrServerError then "server_error"
  else if c =? ErrUnavailable then "unavailable_error"
  else if c =? ErrTimeout then "timeout_error"
  else if c =? ErrCanceled then "canceled_error"
  else if c =? ErrResourceExhausted then "resource_exhausted_error"
  else "unknown_error".

(** [type Error struct].  [Cause] is an [error] interface value, which
    may again hold an [*Error]; the record is therefore parametrised by
    the type of errors and the knot is tied in [error] below.
    [RetryAfter] is a [time.Duration] (nanoseconds). *)
Record Error_ (E : Type) : Type := mkError {
  Code       : ErrorCode;
  Message    : string;
  Cause      : option E;
  RetryAfter : Z;
  GRPCCode   : codes.Code
}.
Arguments mkError {E} _ _ _ _ _.
Arguments Code {E} _.
Arguments Message {E} _.
Arguments Cause {E} _.
Arguments RetryAfter {E} _.
Arguments GRPCCode {E} _.

(** Non-nil values of the Go interface [error] that reach this package:
    - [io_EOF]       the sentinel [io.EOF], compared by identity;
    - [errorString]  what [errors.New] returns (also [context.Canceled]
                     and [context.DeadlineExceeded], which carry no gRPC
                     status);
    - [statusError]  a [*status.Error] with its code and message;
    - [wrapError]    what [fmt.Errorf("...%w", err)] returns: the
                     formatted text and the wrapped error;
    - [xaiError]     an [*Error] of this package, pointing to a struct.
    A nil interface is [None : option error]; an interface that holds a
    nil pointer is not a value of the model. *)
#[warnings="-register-all"] Inductive error : Type :=
| io_EOF
| errorString (s : string)
| statusError (c : codes.Code) (msg : string)
| wrapError (msg : string) (err : error)
| xaiError (e : Error_ error).

Definition Error := Error_ error.

(** The [Error() string] method of each dynamic type.
    The [xaiError] case is the method [Error] of errors.go. *)
Fixpoint error_Error (err : error) : string :=
  match err with
  | io_EOF => "EOF"
  | errorString s => s
  | statusError c msg =>
      "rpc error: code = " +:+ codes.String c +:+ " desc = " +:+ msg
  | wrapError msg _ => msg
  | xaiError e =>
      match Cause e with
      | Some cause =>
          ErrorCode_String (Code e) +:+ ": " +:+ Message e +:+ ": " +:+ error_Error cause
      | None =>
          ErrorCode_String (Code e) +:+ ": " +:+ Message e
      end
  end.

(** [Unwrap() error]: the method of [*Error] returns the cause, a
    [*fmt.wrapError] its wrapped error; the other two have no such
    method. *)
Definition Unwrap (err : error) : option error :=
  match err with
  | xaiError e => Cause e
  | wrapError _ inner => Some inner
  | io_EOF | errorString _ | statusError _ _ => None
  end.

(** [errors.As(err, &t)] with [t : *Error]: the first [*Error] on the
    [Unwrap] chain. *)
Fixpoint errors_As_Error (err : error) : option Error :=
  match err with
  | xaiError e => Some e
  | wrapError _ inner => errors_As_Error inner
  | io_EOF | errorString _ | statusError _ _ => None
  end.

(** [func (e *Error) IsRetryable() bool] *)
Definition IsRetryable (e : Error) : bool :=
  if (Code e =? ErrRateLimit) || (Code e =? ErrUnavailable)
     || (Code e =? ErrTimeout) || (Code e =? ErrServerError)
  then true
  else false.

Definition IsAuth (e : Error) : bool := Code e =? ErrAuth.
Definition IsRateLimit (e : Error) : bool := Code e =? ErrRateLimit.

(** [func (e *Error) Is(target error) bool] *)
Definition Is (e : Error) (target : error) : bool :=
  match errors_As_Error target with
  | Some t => Code e =? Code t
  | None => false
  end.

(** *** google.golang.org/grpc/status *)
Module status.
Record Status := mkStatus { code : codes.Code; message : string }.

(** [errors.As(err, &gs)] with [gs] the interface
    [GRPCStatus() *Status]: the first status error on the chain. *)
Fixpoint As_grpcstatus (err : error) : option Status :=
  match err with
  | statusError c msg => Some (mkStatus c msg)
  | wrapError _ inner => As_grpcstatus inner
  | xaiError e =>
      match Cause e with
      | Some cause => As_grpcstatus cause
      | None => None
      end
  | io_EOF | errorString _ => None
  end.

(** [status.FromError] on a non-nil error.  A status error gives its
    own status; an error that wraps one gives the wrapped code with
    the whole text of the outer error; anything else gives [Unknown]
    with the text of the error and [ok = false]. *)
Definition FromError (err : error) : Status * bool :=
  match err with
  | statusError c msg => (mkStatus c msg, true)
  | _ =>
      match As_grpcstatus err with
      | Some st => (mkStatus (code st) (error_Error err), true)
      | None => (mkStatus codes.Unknown (error_Error err), false)
      end
  end.
End status.

Definition set_Code (e : Error) (c : ErrorCode) : Error :=
  mkError c (Message e) (Cause e) (RetryAfter e) (GRPCCode e).
Definition set_Message (e : Error) (m : string) : Error :=
  mkError (Code e) m (Cause e) (RetryAfter e) (GRPCCode e).

(** [func FromGRPCError(err error) *Error] *)
Definition FromGRPCError (err : option error) : option Error :=
  match err with
  | None => None
  | Some err =>
      let (st, ok) := status.FromError err in
      if negb ok then
        Some (mkError ErrUnknown (error_Error err) (Some err) 0 codes.OK)
      else
        let xaiErr : Error :=
          mkError ErrUnknown (status.message st) (Some err) 0 (status.code st) in
        let c := status.code st in
        Some
          (if (c =? codes.Unauthenticated)%N then
             set_Message (set_Code xaiErr ErrAuth)
               ("authentication failed: " +:+ status.message st)
           else if (c =? codes.PermissionDenied)%N then
             set_Message (set_Code xaiErr ErrAuth)
               ("permission denied: " +:+ status.message st)
           else if (c =? codes.ResourceExhausted)%N then
             set_Message (set_Code xaiErr ErrRateLimit)
               ("rate limit exceeded: " +:+ status.message st)
           else if (c =? codes.InvalidArgument)%N then set_Code xaiErr ErrInvalidRequest
           else if (c =? codes.NotFound)%N then set_Code xaiErr ErrNotFound
           else if (c =? codes.Internal)%N then set_Code xaiErr ErrServerError
           else if (c =? codes.Unavailable)%N then set_Code xaiErr ErrUnavailable
           else if (c =? codes.DeadlineExceeded)%N then set_Code xaiErr ErrTimeout
           else if (c =? codes.Canceled)%N then set_Code xaiErr ErrCanceled
           else if (c =? codes.FailedPrecondition)%N then set_Code xaiErr ErrInvalidRequest
           else if (c =? codes.Aborted)%N then set_Code xaiErr ErrUnavailable
           else if (c =? codes.OutOfRange)%N then set_Code xaiErr ErrInvalidRequest
           else if (c =? codes.Unimplemented)%N then
             set_Message (set_Code xaiErr ErrInvalidRequest)
               ("method not implemented: " +:+ status.message st)
           else if (c =? codes.DataLoss)%N then set_Code xaiErr ErrServerError
           else set_Code xaiErr ErrUnknown)
  end.

(** [func WrapError(err error, message string) error] *)
Definition WrapError (err : option error) (message : string) : option error :=
  match err with
  | None => None
  | Some err =>
      match errors_As_Error err with
      | Some xaiErr =>
          Some (xaiError
                  (mkError (Code xaiErr)
                           (message +:+ ": " +:+ Message xaiErr)
                           (Cause xaiErr)
                           (RetryAfter xaiErr)
                           (GRPCCode xaiErr)))
      | None =>
          Some (wrapError (message +:+ ": " +:+ error_Error err) err)
      end
  end.

(** [context.Canceled] and [context.DeadlineExceeded]: plain errors of
    the standard library; neither has a [GRPCStatus] method. *)
Module context.
Definition Canceled : error := errorString "context canceled".
Definition DeadlineExceeded : error := errorString "context deadline exceeded".
End context.

(* ===================================================================== *)
(** ** The generated package [v1] (proto/xai/api/v1) *)
(* ===================================================================== *)

(** The generated stubs are not part of the sources.  Each enum has one
    constructor per constant the code names and a last constructor for
    every other wire number; each message is the record of the fields
    the code reads through its getters.  A getter on a nil message
    returns zero values, which [orZero] reproduces. *)
Module v1.
Inductive ToolCallType :=
| TOOL_CALL_TYPE_CLIENT_SIDE_TOOL
| TOOL_CALL_TYPE_WEB_SEARCH_TOOL
| TOOL_CALL_TYPE_X_SEARCH_TOOL
| TOOL_CALL_TYPE_CODE_EXECUTION_TOOL
| TOOL_CALL_TYPE_COLLECTIONS_SEARCH_TOOL
| TOOL_CALL_TYPE_MCP_TOOL
| TOOL_CALL_TYPE_ATTACHMENT_SEARCH_TOOL
| ToolCallType_other (n : Z).

Inductive ToolCallStatus :=
| TOOL_CALL_STATUS_COMPLETED
| TOOL_CALL_STATUS_FAILED
| ToolCallStatus_other (n : Z).

Inductive FinishReason :=
| REASON_STOP
| REASON_MAX_LEN
| REASON_MAX_CONTEXT
| REASON_TOOL_CALLS
| FinishReason_other (n : Z).

Inductive DeferredStatus :=
| PENDING
| DONE
| EXPIRED
| DeferredStatus_other (n : Z).

Record FunctionCall := mkFunctionCall {
  fc_Name : string;
  fc_Arguments : string
}.

Record ToolCall := mkToolCall {
  tc_Id : string;
  tc_Type : ToolCallType;
  tc_Status : ToolCallStatus;
  tc_ErrorMessage : option string;
  tc_Function : option FunctionCall
}.

Record SamplingUsage := mkSamplingUsage {
  su_PromptTokens : Z;
  su_CompletionTokens : Z;
  su_TotalTokens : Z;
  su_ReasoningTokens : Z;
  su_CachedPromptTextTokens : Z;
  su_PromptTextTokens : Z;
  su_PromptImageTokens : Z
}.

(** [Delta] of a streamed output and [CompletionMessage] of a
    complete one carry the same three fields. *)
Record Delta := mkDelta {
  d_Content : string;
  d_ReasoningContent : string;
  d_ToolCalls : list (option ToolCall)
}.

Record CompletionOutputChunk := mkOutputChunk {
  oc_FinishReason : FinishReason;
  oc_Delta : option Delta
}.

Record GetChatCompletionChunk := mkChunk {
  c_Id : string;
  c_Citations : list string;
  c_Usage : option SamplingUsage;
  c_Model : string;
  c_Outputs : list CompletionOutputChunk
}.

Record CompletionOutput := mkOutput {
  o_FinishReason : FinishReason;
  o_Message : option Delta
}.

(** [Created] is a [*timestamppb.Timestamp]: seconds and nanoseconds. *)
Record GetChatCompletionResponse := mkResponse {
  r_Id : string;
  r_Citations : list string;
  r_Usage : option SamplingUsage;
  r_Model : string;
  r_SystemFingerprint : string;
  r_Created : option (Z * Z);
  r_Outputs : list CompletionOutput
}.

Record GetDeferredCompletionResponse := mkDeferred {
  dr_Status : DeferredStatus;
  dr_Response : option GetChatCompletionResponse
}.

(** Request side. *)
Inductive MessageRole :=
| ROLE_SYSTEM | ROLE_USER | ROLE_ASSISTANT | ROLE_TOOL | ROLE_DEVELOPER.

Inductive Content :=
| Content_Text (Text : string)
| Content_ImageUrl (ImageUrl : string).

Record Message := mkMessage {
  m_Role : MessageRole;
  m_Content : list Content;
  m_ToolCallId : option string
}.

Inductive IncludeOption :=
| INCLUDE_OPTION_WEB_SEARCH_CALL_OUTPUT
| INCLUDE_OPTION_X_SEARCH_CALL_OUTPUT
| INCLUDE_OPTION_CODE_EXECUTION_CALL_OUTPUT
| INCLUDE_OPTION_INLINE_CITATIONS
| INCLUDE_OPTION_VERBOSE_STREAMING.

Inductive ReasoningEffort :=
| INVALID_EFFORT | EFFORT_LOW | EFFORT_MEDIUM | EFFORT_HIGH.

Inductive ToolMode := TOOL_MODE_AUTO | TOOL_MODE_NONE | TOOL_MODE_REQUIRED.

Inductive FormatType := FORMAT_TYPE_TEXT | FORMAT_TYPE_JSON_OBJECT.

(** The [oneof] of a wire tool. *)
Inductive Tool :=
| Tool_Function (Name Description : string) (Strict : bool) (Parameters : string)
| Tool_WebSearch
| Tool_XSearch
| Tool_CodeExecution
| Tool_CollectionsSearch (CollectionIds : list string)
| Tool_AttachmentSearch (Limit : option Z)
| Tool_Mcp (ServerLabel ServerUrl : string).

(** Sampling parameters are [float32]; the builder only stores and
    copies them. *)
Definition float32 := spec_float.

Record GetCompletionsRequest := mkRequest {
  Messages : list Message;
  Model : string;
  User : string;
  Stop : list string;
  Logprobs : bool;
  StoreMessages : bool;
  Include : list IncludeOption;
  UseEncryptedContent : bool;
  PreviousResponseId : option string;
  MaxTokens : option Z;
  Seed : option Z;
  Temperature : option float32;
  TopP : option float32;
  TopLogprobs : option Z;
  FrequencyPenalty : option float32;
  PresencePenalty : option float32;
  ReasoningEffort_ : option ReasoningEffort;
  ParallelToolCalls : option bool;
  MaxTurns : option Z;
  Tools : list Tool;
  ToolChoice : option ToolMode;
  ResponseFormat : option FormatType
}.

(** Catalog side: the integer fields of [LanguageModel] are [int64]
    prices in 1/100 cent per million tokens. *)
Inductive Modality := TEXT | IMAGE | EMBEDDING | Modality_other (n : Z).

Record LanguageModel := mkLanguageModel {
  lm_Name : string;
  lm_Aliases : list string;
  lm_Version : string;
  lm_MaxPromptLength : Z;
  lm_SystemFingerprint : string;
  lm_Created : option (Z * Z);
  lm_InputModalities : list Modality;
  lm_OutputModalities : list Modality;
  lm_PromptTextTokenPrice : Z;
  lm_PromptImageTokenPrice : Z;
  lm_CachedPromptTokenPrice : Z;
  lm_CompletionTextTokenPrice : Z;
  lm_SearchPrice : Z
}.

(** The zero chunk: what every getter of a nil chunk returns. *)
Definition zeroChunk : GetChatCompletionChunk := mkChunk "" [] None "" [].
End v1.

(* ===================================================================== *)
(** ** Tools: tool calls *)
(* ===================================================================== *)

Definition ToolCallType := Z.
Definition ToolCallTypeClient : ToolCallType := 0.
Definition ToolCallTypeServer : ToolCallType := 1.

Definition ToolCallStatus := Z.
Definition ToolCallStatusPending   : ToolCallStatus := 0.
Definition ToolCallStatusCompleted : ToolCallStatus := 1.
Definition ToolCallStatusFailed    : ToolCallStatus := 2.

Record FunctionCall := mkFunctionCall {
  Name : string;
  Arguments : string
}.

Record ToolCallInfo := mkToolCallInfo {
  ID : string;
  Type_ : ToolCallType;
  Status : ToolCallStatus;
  ErrorMessage : string;
  Function_ : option FunctionCall
}.

Definition IsClientSide (tc : ToolCallInfo) : bool := Type_ tc =? ToolCallTypeClient.
Definition IsServerSide (tc : ToolCallInfo) : bool := Type_ tc =? ToolCallTypeServer.

(** [func toolCallFromProto(tc *v1.ToolCall) *ToolCallInfo] *)
Definition toolCallFromProto (tc : option v1.ToolCall) : option ToolCallInfo :=
  match tc with
  | None => None
  | Some tc =>
      Some {|
        ID := v1.tc_Id tc;
        Type_ :=
          match v1.tc_Type tc with
          | v1.TOOL_CALL_TYPE_CLIENT_SIDE_TOOL => ToolCallTypeClient
          | v1.TOOL_CALL_TYPE_WEB_SEARCH_TOOL
          | v1.TOOL_CALL_TYPE_X_SEARCH_TOOL
          | v1.TOOL_CALL_TYPE_CODE_EXECUTION_TOOL
          | v1.TOOL_CALL_TYPE_COLLECTIONS_SEARCH_TOOL
          | v1.TOOL_CALL_TYPE_MCP_TOOL
          | v1.TOOL_CALL_TYPE_ATTACHMENT_SEARCH_TOOL => ToolCallTypeServer
          | v1.ToolCallType_other _ => ToolCallTypeClient
          end;
        Status :=
          match v1.tc_Status tc with
          | v1.TOOL_CALL_STATUS_COMPLETED => ToolCallStatusCompleted
          | v1.TOOL_CALL_STATUS_FAILED => ToolCallStatusFailed
          | v1.ToolCallStatus_other _ => ToolCallStatusPending
          end;
        ErrorMessage :=
          match v1.tc_ErrorMessage tc with
          | Some m => m
          | None => ""
          end;
        Function_ :=
          match v1.tc_Function tc with
          | Some fn => Some (mkFunctionCall (v1.fc_Name fn) (v1.fc_Arguments fn))
          | None => None
          end
      |}
  end.

(* ===================================================================== *)
(** ** chat.go: responses, chunks and the chunk stream *)
(* ===================================================================== *)

(** [type FinishReason string] *)
Definition FinishReason := string.
Definition FinishReasonStop          : FinishReason := "stop".
Definition FinishReasonLength        : FinishReason := "length".
Definition FinishReasonToolCalls     : FinishReason := "tool_calls".
Definition FinishReasonContentFilter : FinishReason := "content_filter".

Definition finishReasonFromProto (r : v1.FinishReason) : FinishReason :=
  match r with
  | v1.REASON_STOP => FinishReasonStop
  | v1.REASON_MAX_LEN | v1.REASON_MAX_CONTEXT => FinishReasonLength
  | v1.REASON_TOOL_CALLS => FinishReasonToolCalls
  | v1.FinishReason_other _ => ""
  end.

Record Usage := mkUsage {
  PromptTokens : Z;
  CompletionTokens : Z;
  TotalTokens : Z;
  ReasoningTokens : Z;
  CachedPromptTokens : Z;
  PromptTextTokens : Z;
  PromptImageTokens : Z
}.

Definition usageFromProto (u : option v1.SamplingUsage) : Usage :=
  match u with
  | None => mkUsage 0 0 0 0 0 0 0
  | Some u =>
      mkUsage (v1.su_PromptTokens u) (v1.su_CompletionTokens u)
              (v1.su_TotalTokens u) (v1.su_ReasoningTokens u)
              (v1.su_CachedPromptTextTokens u) (v1.su_PromptTextTokens u)
              (v1.su_PromptImageTokens u)
  end.

Record ChatResponse := mkChatResponse {
  resp_ID : string;
  resp_Content : string;
  resp_ReasoningContent : string;
  resp_ToolCalls : list (option ToolCallInfo);
  resp_FinishReason : FinishReason;
  resp_Citations : list string;
  resp_Usage : Usage;
  resp_Model : string;
  resp_Created : option (Z * Z);
  resp_SystemFingerprint : string
}.

(** [func chatResponseFromProto]: only the first output is read. *)
Definition chatResponseFromProto (resp : v1.GetChatCompletionResponse) : ChatResponse :=
  let output := head (v1.r_Outputs resp) in
  let msg := output ≫= v1.o_Message in
  {| resp_ID := v1.r_Id resp;
     resp_Content := from_option v1.d_Content "" msg;
     resp_ReasoningContent := from_option v1.d_ReasoningContent "" msg;
     resp_ToolCalls := from_option (fun m => map toolCallFromProto (v1.d_ToolCalls m)) [] msg;
     resp_FinishReason :=
       from_option (fun o => finishReasonFromProto (v1.o_FinishReason o)) "" output;
     resp_Citations := v1.r_Citations resp;
     resp_Usage := usageFromProto (v1.r_Usage resp);
     resp_Model := v1.r_Model resp;
     resp_Created := v1.r_Created resp;
     resp_SystemFingerprint := v1.r_SystemFingerprint resp |}.

Record ChatChunk := mkChatChunk {
  chunk_ID : string;
  Delta : string;
  ReasoningDelta : string;
  ToolCalls : list (option ToolCallInfo);
  chunk_FinishReason : FinishReason;
  chunk_Citations : list string;
  chunk_Usage : Usage;
  chunk_Model : string
}.

(** [func chunkFromProto(chunk *v1.GetChatCompletionChunk) *ChatChunk]:
    the first output chunk only; each tool call of its delta is
    converted on its own, in order. *)
Definition chunkFromProto (chunk : option v1.GetChatCompletionChunk) : ChatChunk :=
  let chunk := default v1.zeroChunk chunk in
  let output := head (v1.c_Outputs chunk) in
  let delta := output ≫= v1.oc_Delta in
  {| chunk_ID := v1.c_Id chunk;
     Delta := from_option v1.d_Content "" delta;
     ReasoningDelta := from_option v1.d_ReasoningContent "" delta;
     ToolCalls := from_option (fun d => map toolCallFromProto (v1.d_ToolCalls d)) [] delta;
     chunk_FinishReason :=
       from_option (fun o => finishReasonFromProto (v1.oc_FinishReason o)) "" output;
     chunk_Citations := v1.c_Citations chunk;
     chunk_Usage := usageFromProto (v1.c_Usage chunk);
     chunk_Model := v1.c_Model chunk |}.

(** The transport [v1.Chat_GetCompletionChunkClient].  Whatever the
    server and the network do, the client sees one result per call of
    [Recv]: the transport is the sequence of these results and the
    number of calls made so far. *)
Record Transport := mkTransport {
  recvs : nat -> option v1.GetChatCompletionChunk * option error;
  polled : nat
}.

Definition Recv (t : Transport)
  : (option v1.GetChatCompletionChunk * option error) * Transport :=
  (recvs t (polled t), mkTransport (recvs t) (S (polled t))).

(** [type ChunkStream struct { stream; err }] *)
Record ChunkStream := mkChunkStream {
  stream : Transport;
  err : option error
}.

(** A stream as [StreamChat] returns it: no error stored. *)
Definition openStream (t : Transport) : ChunkStream := mkChunkStream t None.

(** [func (s *ChunkStream) Next()], returning a [*ChatChunk] and an
    [error]; the receiver after the call is the third component. *)
Definition Next (s : ChunkStream) : (option ChatChunk * option error) * ChunkStream :=
  match err s with
  | Some e => ((None, Some e), s)
  | None =>
      let '((chunk, rerr), t') := Recv (stream s) in
      match rerr with
      | Some io_EOF => ((None, Some io_EOF), mkChunkStream t' (err s))
      | Some e =>
          let stored := option_map xaiError (FromGRPCError (Some e)) in
          ((None, stored), mkChunkStream t' stored)
      | None => ((Some (chunkFromProto chunk), None), mkChunkStream t' (err s))
      end
  end.

(** [func (s *ChunkStream) Close() error] *)
Definition Close (s : ChunkStream) : option error * ChunkStream := (None, s).

(** [func (s *ChunkStream) Err() error] *)
Definition Err (s : ChunkStream) : option error :=
  match err s with
  | Some io_EOF => None
  | e => e
  end.

(** [n] successive calls of [Next]: the results in order and the stream
    afterwards. *)
Fixpoint pulls (n : nat) (s : ChunkStream)
  : list (option ChatChunk * option error) * ChunkStream :=
  match n with
  | O => ([], s)
  | S n' =>
      let (r, s1) := Next s in
      let (rs, s2) := pulls n' s1 in
      (r :: rs, s2)
  end.

(** The caller's loop of cmd/minimal-client ([streamResponse]): pull
    until [io.EOF] or an error and collect the tool calls of every chunk
    in arrival order.  The loop ends with the stream, so it is bounded
    here by the number of pulls allowed.  [Next] never returns a nil
    chunk without an error; the loop would dereference it. *)
Fixpoint collectToolCalls (fuel : nat) (s : ChunkStream) (acc : list (option ToolCallInfo))
  : option (list (option ToolCallInfo) * option error) :=
  match fuel with
  | O => None
  | S fuel' =>
      match Next s with
      | ((_, Some io_EOF), _) => Some (acc, None)
      | ((_, Some e), _) => Some (acc, Some e)
      | ((Some chunk, None), s') => collectToolCalls fuel' s' (acc ++ ToolCalls chunk)
      | ((None, None), _) => None
      end
  end.

(** Reconciliation as the specification words it: tool calls are keyed
    by call id and a later record for an id replaces the earlier one, so
    that the entry of an id is the last [ToolCallInfo] produced for it.
    Nil entries carry no id and are skipped. *)
Definition reconcileStep (m : gmap string ToolCallInfo) (tc : option ToolCallInfo)
  : gmap string ToolCallInfo :=
  match tc with
  | Some info => <[ID info := info]> m
  | None => m
  end.

Definition reconcile (tcs : list (option ToolCallInfo)) : gmap string ToolCallInfo :=
  foldl reconcileStep ∅ tcs.

(** A transport that delivers the fragments of a list in order and
    [io.EOF] ever after. *)
Definition scripted (frags : list v1.GetChatCompletionChunk) : Transport :=
  mkTransport
    (fun k => match frags !! k with
              | Some c => (Some c, None)
              | None => (None, Some io_EOF)
              end) 0.

(** The tool calls of a raw fragment that [chunkFromProto] converts:
    those of the delta of its first output. *)
Definition fragmentToolCalls (c : v1.GetChatCompletionChunk) : list (option v1.ToolCall) :=
  from_option v1.d_ToolCalls [] (head (v1.c_Outputs c) ≫= v1.oc_Delta).

(** The converted tool calls of a list of fragments, in arrival order. *)
Definition collected (frags : list v1.GetChatCompletionChunk) : list (option ToolCallInfo) :=
  concat (map (fun c => map toolCallFromProto (fragmentToolCalls c)) frags).

(** Whether a raw tool call, and a fragment, reference a call id. *)
Definition references (id : string) (tc : option v1.ToolCall) : bool :=
  match tc with
  | Some t => String.eqb (v1.tc_Id t) id
  | None => false
  end.

Definition mentions (id : string) (c : v1.GetChatCompletionChunk) : bool :=
  existsb (references id) (fragmentToolCalls c).

(** A fragment whose only content is one tool call. *)
Definition toolCallFragment (tc : v1.ToolCall) : v1.GetChatCompletionChunk :=
  v1.mkChunk "" [] None ""
    [v1.mkOutputChunk (v1.FinishReason_other 0) (Some (v1.mkDelta "" "" [Some tc]))].

(** The argument strings of the two fragments of the scenario; [dq] is
    the double quote. *)
Definition dq : string := String "034"%char "".
Definition argsPartial : string := "{" +:+ dq +:+ "a" +:+ dq +:+ ":".
Definition argsFull : string :=
  "{" +:+ dq +:+ "a" +:+ dq +:+ ":1," +:+ dq +:+ "b" +:+ dq +:+ ":2}".

(* ===================================================================== *)
(** ** chat.go: deferred completions *)
(* ===================================================================== *)

(** [type DeferredStatus string] *)
Definition DeferredStatus := string.
Definition DeferredStatusPending   : DeferredStatus := "pending".
Definition DeferredStatusCompleted : DeferredStatus := "completed".
Definition DeferredStatusFailed    : DeferredStatus := "failed".

Record DeferredResponse := mkDeferredResponse {
  def_Status : DeferredStatus;
  def_Response : option ChatResponse;
  def_Error : string
}.

(** What one run of [WaitForDeferred] observes of its surroundings, in
    the time unit of the caller's durations:
    - the [k]-th call of the RPC [GetDeferredCompletion] for a request
      id takes [rpcLatency k] and returns a response or an error;
    - the caller's context is done from [ctxDoneAt] on, if ever, and
      [ctx.Err()] is then [ctxErr];
    - when both channels of the [select] are ready at the same instant
      Go picks one at random: [selectTie k] says whether the context
      wins in the [k]-th wait. *)
Record World := mkWorld {
  rpcLatency : nat -> Z;
  rpcResult : string -> nat -> v1.GetDeferredCompletionResponse + error;
  ctxDoneAt : option Z;
  ctxErr : error;
  selectTie : nat -> bool
}.

(** [func (c *Client) GetDeferred], after the RPC has returned. *)
Definition GetDeferred (rpc : v1.GetDeferredCompletionResponse + error)
  : option DeferredResponse * option error :=
  match rpc with
  | inr e => (None, option_map xaiError (FromGRPCError (Some e)))
  | inl resp =>
      let result :=
        match v1.dr_Status resp with
        | v1.PENDING => mkDeferredResponse DeferredStatusPending None ""
        | v1.DONE =>
            mkDeferredResponse DeferredStatusCompleted
              (option_map chatResponseFromProto (v1.dr_Response resp)) ""
        | v1.EXPIRED =>
            mkDeferredResponse DeferredStatusFailed None "deferred completion expired"
        | v1.DeferredStatus_other _ => mkDeferredResponse "" None ""
        end in
      (Some result, None)
  end.

Inductive Woken := CtxDone | TimerFired.

(** The [select] between [ctx.Done()] and [time.After(pollInterval)],
    entered at [now]: which case runs, and when.  A timer with a
    duration that is not positive fires at once. *)
Definition selectWait (w : World) (k : nat) (now pollInterval : Z) : Woken * Z :=
  let timerAt := now + Z.max 0 pollInterval in
  match ctxDoneAt w with
  | None => (TimerFired, timerAt)
  | Some tc =>
      let doneAt := Z.max now tc in
      if doneAt <? timerAt then (CtxDone, doneAt)
      else if timerAt <? doneAt then (TimerFired, timerAt)
      else if selectTie w k then (CtxDone, doneAt)
      else (TimerFired, timerAt)
  end.

Definition errDeferredFailed (reason : string) : error :=
  xaiError (mkError ErrServerError ("deferred completion failed: " +:+ reason) None 0 codes.OK).

Definition errWaitTimeout : error :=
  xaiError (mkError ErrTimeout "timeout waiting for deferred completion" None 0 codes.OK).

(** The loop of [WaitForDeferred] from its [k]-th iteration, entered at
    [now]; the result is what the function returns and the instant it
    returns.  [fuel] bounds the number of polls. *)
Fixpoint waitLoop (fuel : nat) (w : World) (requestID : string)
    (pollInterval deadline : Z) (k : nat) (now : Z)
  : option ((option ChatResponse * option error) * Z) :=
  if now <? deadline then
    match fuel with
    | O => None
    | S fuel' =>
        let now1 := now + rpcLatency w k in
        match GetDeferred (rpcResult w requestID k) with
        | (_, Some e) => Some ((None, Some e), now1)
        | (None, None) => None
        | (Some resp, None) =>
            if String.eqb (def_Status resp) DeferredStatusCompleted then
              Some ((def_Response resp, None), now1)
            else if String.eqb (def_Status resp) DeferredStatusFailed then
              Some ((None, Some (errDeferredFailed (def_Error resp))), now1)
            else
              match selectWait w k now1 pollInterval with
              | (CtxDone, now2) =>
                  Some ((None, option_map xaiError (FromGRPCError (Some (ctxErr w)))), now2)
              | (TimerFired, now2) =>
                  waitLoop fuel' w requestID pollInterval deadline (S k) now2
              end
        end
    end
  else Some ((None, Some errWaitTimeout), now).

(** [func (c *Client) WaitForDeferred(ctx, requestID, pollInterval, timeout)]
    called at the instant [start]. *)
Definition WaitForDeferred (fuel : nat) (w : World) (requestID : string)
    (pollInterval timeout : Z) (start : Z)
  : option ((option ChatResponse * option error) * Z) :=
  let deadline := start + timeout in
  waitLoop fuel w requestID pollInterval deadline 0 start.

(** The kind of the error a call returned, if it returned one of this
    package. *)
Definition kindOf (e : option error) : option ErrorCode :=
  match e with
  | Some (xaiError x) => Some (Code x)
  | _ => None
  end.

(* ===================================================================== *)
(** ** Tools: tool descriptors *)
(* ===================================================================== *)

(** The implementers of the interface [Tool].  [Parameters] is a
    [json.RawMessage], nil until set. *)
Inductive Tool :=
| FunctionTool (Name Description : string) (Parameters : option string) (Strict : bool)
| WebSearchTool
| XSearchTool
| CodeExecutionTool
| CollectionsSearchTool (CollectionIDs : list string)
| AttachmentSearchTool (Limit : option Z)
| MCPTool (ServerLabel ServerURL : string).

Definition Tool_toProto (t : Tool) : v1.Tool :=
  match t with
  | FunctionTool name description parameters strict =>
      v1.Tool_Function name description strict (default "" parameters)
  | WebSearchTool => v1.Tool_WebSearch
  | XSearchTool => v1.Tool_XSearch
  | CodeExecutionTool => v1.Tool_CodeExecution
  | CollectionsSearchTool ids => v1.Tool_CollectionsSearch ids
  | AttachmentSearchTool limit => v1.Tool_AttachmentSearch limit
  | MCPTool label url => v1.Tool_Mcp label url
  end.

(** [type ToolChoice int] *)
Definition ToolChoice := Z.
Definition ToolChoiceAuto     : ToolChoice := 0.
Definition ToolChoiceNone     : ToolChoice := 1.
Definition ToolChoiceRequired : ToolChoice := 2.

Definition ToolChoice_toProto (tc : ToolChoice) : v1.ToolMode :=
  if tc =? ToolChoiceNone then v1.TOOL_MODE_NONE
  else if tc =? ToolChoiceRequired then v1.TOOL_MODE_REQUIRED
  else v1.TOOL_MODE_AUTO.

(* ===================================================================== *)
(** ** chat_request.go: the request builder *)
(* ===================================================================== *)

(** [type ReasoningEffort int], numbered from 1. *)
Definition ReasoningEffort := Z.
Definition ReasoningEffortLow    : ReasoningEffort := 1.
Definition ReasoningEffortMedium : ReasoningEffort := 2.
Definition ReasoningEffortHigh   : ReasoningEffort := 3.

Definition ReasoningEffort_toProto (r : ReasoningEffort) : v1.ReasoningEffort :=
  if r =? ReasoningEffortLow then v1.EFFORT_LOW
  else if r =? ReasoningEffortMedium then v1.EFFORT_MEDIUM
  else if r =? ReasoningEffortHigh then v1.EFFORT_HIGH
  else v1.INVALID_EFFORT.

(** [type ResponseFormat int] *)
Definition ResponseFormat := Z.
Definition ResponseFormatText : ResponseFormat := 0.
Definition ResponseFormatJSON : ResponseFormat := 1.

(** [type ChatRequest struct]: the accumulated state of the builder.
    Pointer fields are [option]s, nil until their setter runs. *)
Record ChatRequest := mkChatRequest {
  messages            : list v1.Message;
  model               : string;
  user                : string;
  maxTokens           : option Z;
  seed                : option Z;
  stop                : list string;
  temperature         : option v1.float32;
  topP                : option v1.float32;
  logprobs            : bool;
  topLogprobs         : option Z;
  tools               : list Tool;
  toolChoice          : option ToolChoice;
  responseFormat      : option ResponseFormat;
  frequencyPenalty    : option v1.float32;
  presencePenalty     : option v1.float32;
  reasoningEffort     : option ReasoningEffort;
  parallelToolCalls   : option bool;
  storeMessages       : bool;
  maxTurns            : option Z;
  includeOptions      : list v1.IncludeOption;
  previousResponseID  : string;
  useEncryptedContent : bool
}.

(** [func NewChatRequest() *ChatRequest]: every field zero. *)
Definition NewChatRequest : ChatRequest :=
  mkChatRequest [] "" "" None None [] None None false None [] None None
                None None None None false None [] "" false.

(** The mutators, one constructor per method of the builder with its
    arguments; [apply] is the method body. *)
Inductive Call :=
| SystemMessage (text : string)
| UserMessage (text : string)
| UserWithImage (text imageURL : string)
| AssistantMessage (text : string)
| ToolResult (toolCallID result : string)
| DeveloperMessage (text : string)
| WithModel (m : string)
| WithUser (u : string)
| WithMaxTokens (n : Z)
| WithSeed (n : Z)
| WithStop (sequences : list string)
| WithTemperature (t : v1.float32)
| WithTopP (p : v1.float32)
| WithLogprobs (topLogprobs : Z)
| AddTool (tool : Tool)
| AddTools (ts : list Tool)
| WithToolChoice (choice : ToolChoice)
| WithResponseFormat (format : ResponseFormat)
| WithFrequencyPenalty (p : v1.float32)
| WithPresencePenalty (p : v1.float32)
| WithReasoningEffort (effort : ReasoningEffort)
| WithParallelToolCalls (enabled : bool)
| WithStoreMessages (store : bool)
| WithPreviousResponseId (id : string)
| WithEncryptedContent (enabled : bool)
| WithMaxTurns (n : Z)
| IncludeWebSearchOutput
| IncludeXSearchOutput
| IncludeCodeExecutionOutput
| IncludeInlineCitations
| IncludeVerboseStreaming.

Definition appendMessage (r : ChatRequest) (m : v1.Message) : ChatRequest :=
  mkChatRequest (messages r ++ [m]) (model r) (user r) (maxTokens r) (seed r) (stop r)
    (temperature r) (topP r) (logprobs r) (topLogprobs r) (tools r) (toolChoice r)
    (responseFormat r) (frequencyPenalty r) (presencePenalty r) (reasoningEffort r)
    (parallelToolCalls r) (storeMessages r) (maxTurns r) (includeOptions r)
    (previousResponseID r) (useEncryptedContent r).

Definition appendInclude (r : ChatRequest) (o : v1.IncludeOption) : ChatRequest :=
  mkChatRequest (messages r) (model r) (user r) (maxTokens r) (seed r) (stop r)
    (temperature r) (topP r) (logprobs r) (topLogprobs r) (tools r) (toolChoice r)
    (responseFormat r) (frequencyPenalty r) (presencePenalty r) (reasoningEffort r)
    (parallelToolCalls r) (storeMessages r) (maxTurns r) (includeOptions r ++ [o])
    (previousResponseID r) (useEncryptedContent r).

Definition textMessage (role : v1.MessageRole) (text : string) : v1.Message :=
  v1.mkMessage role [v1.Content_Text text] None.

Definition apply (c : Call) (r : ChatRequest) : ChatRequest :=
  let 'mkChatRequest ms mo us mt se st te tp lp tl ts tc rf fp pp re pt sm mx io pr ue := r in
  match c with
  | SystemMessage text => appendMessage r (textMessage v1.ROLE_SYSTEM text)
  | UserMessage text => appendMessage r (textMessage v1.ROLE_USER text)
  | UserWithImage text imageURL =>
      appendMessage r
        (v1.mkMessage v1.ROLE_USER [v1.Content_Text text; v1.Content_ImageUrl imageURL] None)
  | AssistantMessage text => appendMessage r (textMessage v1.ROLE_ASSISTANT text)
  | ToolResult toolCallID result =>
      appendMessage r (v1.mkMessage v1.ROLE_TOOL [v1.Content_Text result] (Some toolCallID))
  | DeveloperMessage text => appendMessage r (textMessage v1.ROLE_DEVELOPER text)
  | WithModel m =>
      mkChatRequest ms m us mt se st te tp lp tl ts tc rf fp pp re pt sm mx io pr ue
  | WithUser u =>
      mkChatRequest ms mo u mt se st te tp lp tl ts tc rf fp pp re pt sm mx io pr ue
  | WithMaxTokens n =>
      mkChatRequest ms mo us (Some n) se st te tp lp tl ts tc rf fp pp re pt sm mx io pr ue
  | WithSeed n =>
      mkChatRequest ms mo us mt (Some n) st te tp lp tl ts tc rf fp pp re pt sm mx io pr ue
  | WithStop sequences =>
      mkChatRequest ms mo us mt se sequences te tp lp tl ts tc rf fp pp re pt sm mx io pr ue
  | WithTemperature t =>
      mkChatRequest ms mo us mt se st (Some t) tp lp tl ts tc rf fp pp re pt sm mx io pr ue
  | WithTopP p =>
      mkChatRequest ms mo us mt se st te (Some p) lp tl ts tc rf fp pp re pt sm mx io pr ue
  | WithLogprobs n =>
      mkChatRequest ms mo us mt se st te tp true (Some n) ts tc rf fp pp re pt sm mx io pr ue
  | AddTool tool =>
      mkChatRequest ms mo us mt se st te tp lp tl (ts ++ [tool]) tc rf fp pp re pt sm mx io pr ue
  | AddTools more =>
      mkChatRequest ms mo us mt se st te tp lp tl (ts ++ more) tc rf fp pp re pt sm mx io pr ue
  | WithToolChoice choice =>
      mkChatRequest ms mo us mt se st te tp lp tl ts (Some choice) rf fp pp re pt sm mx io pr ue
  | WithResponseFormat format =>
      mkChatRequest ms mo us mt se st te tp lp tl ts tc (Some format) fp pp re pt sm mx io pr ue
  | WithFrequencyPenalty p =>
      mkChatRequest ms mo us mt se st te tp lp tl ts tc rf (Some p) pp re pt sm mx io pr ue
  | WithPresencePenalty p =>
      mkChatRequest ms mo us mt se st te tp lp tl ts tc rf fp (Some p) re pt sm mx io pr ue
  | WithReasoningEffort effort =>
      mkChatRequest ms mo us mt se st te tp lp tl ts tc rf fp pp (Some effort) pt sm mx io pr ue
  | WithParallelToolCalls enabled =>
      mkChatRequest ms mo us mt se st te tp lp tl ts tc rf fp pp re (Some enabled) sm mx io pr ue
  | WithStoreMessages store =>
      mkChatRequest ms mo us mt se st te tp lp tl ts tc rf fp pp re pt store mx io pr ue
  | WithPreviousResponseId id =>
      mkChatRequest ms mo us mt se st te tp lp tl ts tc rf fp pp re pt sm mx io id ue
  | WithEncryptedContent enabled =>
      mkChatRequest ms mo us mt se st te tp lp tl ts tc rf fp pp re pt sm mx io pr enabled
  | WithMaxTurns n =>
      mkChatRequest ms mo us mt se st te tp lp tl ts tc rf fp pp re pt sm (Some n) io pr ue
  | IncludeWebSearchOutput => appendInclude r v1.INCLUDE_OPTION_WEB_SEARCH_CALL_OUTPUT
  | IncludeXSearchOutput => appendInclude r v1.INCLUDE_OPTION_X_SEARCH_CALL_OUTPUT
  | IncludeCodeExecutionOutput => appendInclude r v1.INCLUDE_OPTION_CODE_EXECUTION_CALL_OUTPUT
  | IncludeInlineCitations => appendInclude r v1.INCLUDE_OPTION_INLINE_CITATIONS
  | IncludeVerboseStreaming => appendInclude r v1.INCLUDE_OPTION_VERBOSE_STREAMING
  end.

(** A chain of builder calls on a receiver, first call first. *)
Definition calls (cs : list Call) (r : ChatRequest) : ChatRequest :=
  foldl (fun r c => apply c r) r cs.

(** The builder is a Go object behind a pointer: a method is a
    computation on the receiver's state that returns a value and the
    state it leaves. *)
Definition Method (A : Type) : Type := ChatRequest -> A * ChatRequest.

Definition ret {A} (a : A) : Method A := fun r => (a, r).
Definition bind {A B} (m : Method A) (f : A -> Method B) : Method B :=
  fun r => let (a, r') := m r in f a r'.
Definition read {A} (field : ChatRequest -> A) : Method A := fun r => (field r, r).

Notation "x <- m ;; k" := (bind m (fun x => k))
  (at level 100, m at next level, right associativity).

(** [func (r *ChatRequest) Build(defaultModel string) *v1.GetCompletionsRequest].
    The body only reads the receiver; the request is assembled in the
    order of the source. *)
Definition Build (defaultModel : string) : Method v1.GetCompletionsRequest :=
  ms <- read messages ;;
  mo <- read model ;;
  us <- read user ;;
  st <- read stop ;;
  lp <- read logprobs ;;
  sm <- read storeMessages ;;
  io <- read includeOptions ;;
  ue <- read useEncryptedContent ;;
  pr <- read previousResponseID ;;
  let previous := if String.eqb pr "" then None else Some pr in
  let mo := if String.eqb mo "" then defaultModel else mo in
  mt <- read maxTokens ;;
  se <- read seed ;;
  te <- read temperature ;;
  tp <- read topP ;;
  tl <- read topLogprobs ;;
  fp <- read frequencyPenalty ;;
  pp <- read presencePenalty ;;
  re <- read reasoningEffort ;;
  pt <- read parallelToolCalls ;;
  mx <- read maxTurns ;;
  ts <- read tools ;;
  tc <- read toolChoice ;;
  rf <- read responseFormat ;;
  ret (v1.mkRequest ms mo us st lp sm io ue previous mt se te tp tl fp pp
         (option_map ReasoningEffort_toProto re) pt mx
         (map Tool_toProto ts)
         (option_map ToolChoice_toProto tc)
         (option_map (fun f => if f =? ResponseFormatJSON
                               then v1.FORMAT_TYPE_JSON_OBJECT
                               else v1.FORMAT_TYPE_TEXT) rf)).

(* ===================================================================== *)
(** ** Models: catalog entries *)
(* ===================================================================== *)

(** [float64] is IEEE 754 binary64: 53 bits of precision, exponents
    below 1024.  A conversion or an operation returns the correctly
    rounded value (to nearest, ties to even). *)
Definition float64 := spec_float.

Definition float64_of_int (z : Z) : float64 := binary_normalize 53 1024 z 0 false.
Definition float64_div (x y : float64) : float64 := SFdiv 53 1024 x y.

(** [type Modality string] *)
Definition Modality := string.
Definition ModalityText      : Modality := "text".
Definition ModalityImage     : Modality := "image".
Definition ModalityEmbedding : Modality := "embedding".

Definition modalityFromProto (m : v1.Modality) : Modality :=
  match m with
  | v1.TEXT => ModalityText
  | v1.IMAGE => ModalityImage
  | v1.EMBEDDING => ModalityEmbedding
  | v1.Modality_other _ => ""
  end.

Record Pricing := mkPricing { PerMillionTokens : float64 }.

Record LanguageModel := mkLanguageModel {
  lm_Name : string;
  Aliases : list string;
  Version : string;
  InputModalities : list Modality;
  OutputModalities : list Modality;
  MaxPromptLength : Z;
  Created : option (Z * Z);
  SystemFingerprint : string;
  PromptTextPricing : Pricing;
  PromptImagePricing : Pricing;
  CachedPromptPricing : Pricing;
  CompletionPricing : Pricing;
  SearchPricing : Pricing
}.

(** The modalities the package knows, in order; unknown ones are
    dropped. *)
Definition modalitiesFromProto (ms : list v1.Modality) : list Modality :=
  filter (fun mm => negb (String.eqb mm "")) (map modalityFromProto ms).

(** [func languageModelFromProto(m *v1.LanguageModel) *LanguageModel] *)
Definition languageModelFromProto (m : v1.LanguageModel) : LanguageModel :=
  {| lm_Name := v1.lm_Name m;
     Aliases := v1.lm_Aliases m;
     Version := v1.lm_Version m;
     InputModalities := modalitiesFromProto (v1.lm_InputModalities m);
     OutputModalities := modalitiesFromProto (v1.lm_OutputModalities m);
     MaxPromptLength := v1.lm_MaxPromptLength m;
     Created := v1.lm_Created m;
     SystemFingerprint := v1.lm_SystemFingerprint m;
     PromptTextPricing :=
       mkPricing (float64_div (float64_of_int (v1.lm_PromptTextTokenPrice m))
                              (float64_of_int 10000));
     PromptImagePricing :=
       mkPricing (float64_div (float64_of_int (v1.lm_PromptImageTokenPrice m))
                              (float64_of_int 10000));
     CachedPromptPricing :=
       mkPricing (float64_div (float64_of_int (v1.lm_CachedPromptTokenPrice m))
                              (float64_of_int 10000));
     CompletionPricing :=
       mkPricing (float64_div (float64_of_int (v1.lm_CompletionTextTokenPrice m))
                              (float64_of_int 10000));
     SearchPricing :=
       mkPricing (float64_div (float64_of_int (v1.lm_SearchPrice m))
                              (float64_of_int 10000)) |}.

(** [func embeddingModelFromProto]: the two prices of an embedding
    model, scaled the same way. *)
Definition embeddingPricesFromProto (promptTextTokenPrice promptImageTokenPrice : Z)
  : Pricing * Pricing :=
  (mkPricing (float64_div (float64_of_int promptTextTokenPrice) (float64_of_int 10000)),
   mkPricing (float64_div (float64_of_int promptImageTokenPrice) (float64_of_int 10000))).

(** [func imageModelFromProto]: [PricePerImage]. *)
Definition pricePerImageFromProto (imagePrice : Z) : float64 :=
  float64_div (float64_of_int imagePrice) (float64_of_int 10000).

(** The price the specification gives a raw wire field: the field
    divided by 10000, in [float64]. *)
Definition scaledPrice (raw : Z) : Pricing :=
  mkPricing (float64_div (float64_of_int raw) (float64_of_int 10000)).

(** The number a finite [float64] stands for, as a fraction. *)
Definition float64_value (f : float64) : option Q :=
  match f with
  | S754_zero _ => Some 0%Q
  | S754_finite s m e =>
      let n := if s then Z.neg m else Z.pos m in
      Some (if (0 <=? e)%Z then inject_Z (n * 2 ^ e)
            else Qmake n (Z.to_pos (2 ^ (- e))))
  | S754_infinity _ | S754_nan => None
  end.

(* ===================================================================== *)
(** ** The documented tables *)
(* ===================================================================== *)

(** The mapping table of the error translator as the specification
    lists it: transport code, kind. *)
Definition mappingTable : list (codes.Code * ErrorCode) :=
  [ (codes.Unauthenticated,    ErrAuth);
    (codes.PermissionDenied,   ErrAuth);
    (codes.ResourceExhausted,  ErrRateLimit);
    (codes.InvalidArgument,    ErrInvalidRequest);
    (codes.FailedPrecondition, ErrInvalidRequest);
    (codes.OutOfRange,         ErrInvalidRequest);
    (codes.Unimplemented,      ErrInvalidRequest);
    (codes.NotFound,           ErrNotFound);
    (codes.Internal,           ErrServerError);
    (codes.DataLoss,           ErrServerError);
    (codes.Unavailable,        ErrUnavailable);
    (codes.Aborted,            ErrUnavailable);
    (codes.DeadlineExceeded,   ErrTimeout);
    (codes.Canceled,           ErrCanceled) ].

(** The retryable kinds as the specification lists them. *)
Definition retryableKinds : list ErrorCode :=
  [ErrRateLimit; ErrUnavailable; ErrTimeout; ErrServerError].

(** The [Unwrap] chain of an error, the error itself first. *)
Fixpoint chain (err : error) : list error :=
  err ::
  match err with
  | wrapError _ inner => chain inner
  | xaiError e =>
      match Cause e with
      | Some cause => chain cause
      | None => []
      end
  | io_EOF | errorString _ | statusError _ _ => []
  end.

(** The first [*Error] of a list of errors. *)
Fixpoint firstError (l : list error) : option Error :=
  match l with
  | [] => None
  | xaiError e :: _ => Some e
  | _ :: l' => firstError l'
  end.

(* ===================================================================== *)
(** ** Scenarios of a deferred completion *)
(* ===================================================================== *)

(** The [k]-th poll of a request reports a raw status. *)
Definition pollReports (w : World) (requestID : string) (k : nat) (st : v1.DeferredStatus)
  : Prop :=
  exists resp, rpcResult w requestID k = inl resp /\ v1.dr_Status resp = st.

(** The completion never leaves [PENDING]. *)
Definition staysPending (w : World) (requestID : string) : Prop :=
  forall k, pollReports w requestID k v1.PENDING.

(** The caller never cancels and sets no deadline. *)
Definition neverDone (w : World) : Prop := ctxDoneAt w = None.

(** No poll takes negative time. *)
Definition latenciesNonNegative (w : World) : Prop := forall k, 0 <= rpcLatency w k.

(** The time [n] rounds of poll and wait take from the [k]-th poll on. *)
Fixpoint elapsed (w : World) (pollInterval : Z) (k n : nat) : Z :=
  match n with
  | O => 0
  | S n' => rpcLatency w k + Z.max 0 pollInterval + elapsed w pollInterval (S k) n'
  end.

(** A world in which every poll takes no time and reports [PENDING],
    and the caller never cancels. *)
Definition pendingForever : World :=
  mkWorld (fun _ => 0)
          (fun _ _ => inl (v1.mkDeferred v1.PENDING None))
          None context.Canceled (fun _ => true).

(** A world in which the third poll reports [EXPIRED]. *)
Definition expiresAtThirdPoll : World :=
  mkWorld (fun _ => 0)
          (fun _ k => inl (v1.mkDeferred (if (k <? 2)%nat then v1.PENDING else v1.EXPIRED) None))
          None context.Canceled (fun _ => true).

(** A world in which polls report [PENDING] and the caller cancels at
    instant 5. *)
Definition cancelledAtFive : World :=
  mkWorld (fun _ => 0)
          (fun _ _ => inl (v1.mkDeferred v1.PENDING None))
          (Some 5) context.Canceled (fun _ => true).

(* ===================================================================== *)
(** ** errors.go: sentinels *)
(* ===================================================================== *)

(** The sentinels [&Error{Code: c}]: every other field zero.  There is
    one for each kind but [ErrUnknown]. *)
Definition sentinel (c : ErrorCode) : error := xaiError (mkError c "" None 0 codes.OK).

Definition ErrAuthSentinel        : error := sentinel ErrAuth.
Definition ErrRateLimitSentinel   : error := sentinel ErrRateLimit.
Definition ErrInvalidSentinel     : error := sentinel ErrInvalidRequest.
Definition ErrNotFoundSentinel    : error := sentinel ErrNotFound.
Definition ErrServerSentinel      : error := sentinel ErrServerError.
Definition ErrUnavailableSentinel : error := sentinel ErrUnavailable.
Definition ErrTimeoutSentinel     : error := sentinel ErrTimeout.
Definition ErrCanceledSentinel    : error := sentinel ErrCanceled.
Definition ErrExhaustedSentinel   : error := sentinel ErrResourceExhausted.

Definition sentinels : list error :=
  [ErrAuthSentinel; ErrRateLimitSentinel; ErrInvalidSentinel; ErrNotFoundSentinel;
   ErrServerSentinel; ErrUnavailableSentinel; ErrTimeoutSentinel; ErrCanceledSentinel;
   ErrExhaustedSentinel].

(** The transport codes whose translation is retryable. *)
Definition retryableCodes : list codes.Code :=
  [codes.ResourceExhausted; codes.Internal; codes.DataLoss; codes.Unavailable;
   codes.Aborted; codes.DeadlineExceeded].

(** Successive calls of [WrapError], the first message of the list
    first. *)
Definition wrapAll (messages : list string) (e : option error) : option error :=
  foldl WrapError e messages.

(** What the messages of successive wraps prefix a message with: the
    last wrap comes first. *)
Fixpoint prefixed (messages : list string) (text : string) : string :=
  match messages with
  | [] => text
  | m :: rest => prefixed rest (m +:+ ": " +:+ text)
  end.

(* ===================================================================== *)
(** ** Tools: matching a call against the registered tools *)
(* ===================================================================== *)

(** The loop of [IsClientSideTool]: the first registered [*FunctionTool]
    with the name ends it. *)
Fixpoint anyFunctionNamed (name : string) (registeredTools : list Tool) : bool :=
  match registeredTools with
  | [] => false
  | FunctionTool n _ _ _ :: rest =>
      if String.eqb n name then true else anyFunctionNamed name rest
  | _ :: rest => anyFunctionNamed name rest
  end.

(** [func IsClientSideTool(call *ToolCallInfo, registeredTools []Tool) bool] *)
Definition IsClientSideTool (call : option ToolCallInfo) (registeredTools : list Tool) : bool :=
  match call with
  | None => false
  | Some call =>
      match Function_ call with
      | None => false
      | Some fn => anyFunctionNamed (Name fn) registeredTools
      end
  end.




(* ===================================================================== *)
(** ** secure.go *)
(* ===================================================================== *)

(** [type SecureString struct { mu; value []byte }].  [backing] is the
    byte array [NewSecureString] allocated and [closed] says that the
    slice [value] is nil.  The mutex orders the calls; one call at a
    time is modelled. *)
Record SecureString := mkSecureString {
  backing : string;
  closed : bool
}.

Definition zeroByte : ascii := "000"%char.

Fixpoint zeroed (bytes : string) : string :=
  match bytes with
  | EmptyString => EmptyString
  | String _ rest => String zeroByte (zeroed rest)
  end.

Definition NewSecureString (value : string) : SecureString := mkSecureString value false.

(** [func (s *SecureString) Value() string] *)
Definition SecureString_Value (s : SecureString) : string :=
  if closed s then "" else backing s.

(** [func (s *SecureString) Close()]: the bytes are overwritten with
    zeros before the slice is dropped. *)
Definition SecureString_Close (s : SecureString) : SecureString :=
  if closed s then s else mkSecureString (zeroed (backing s)) true.

(** [func (s *SecureString) Len() int] *)
Definition SecureString_Len (s : SecureString) : nat :=
  if closed s then 0%nat else String.length (backing s).

(** [func (s *SecureString) IsZero() bool], also on a nil receiver. *)
Definition SecureString_IsZero (s : option SecureString) : bool :=
  match s with
  | None => true
  | Some s => (SecureString_Len s =? 0)%nat
  end.

(** [func (s *SecureString) Redacted() string] *)
Definition SecureString_Redacted (s : SecureString) : string :=
  let n := SecureString_Len s in
  if (n <? 12)%nat then "****"
  else substring 0 4 (backing s) +:+ "****" +:+ substring (n - 4) 4 (backing s).

(* ===================================================================== *)
(** ** client.go: configuration and credentials *)
(* ===================================================================== *)

(** A [time.Duration] counts nanoseconds. *)
Definition Second : Z := 1000000000.

Definition DefaultEndpoint : string := "api.x.ai:443".
Definition DefaultTimeout : Z := 120 * Second.
Definition DefaultModel : string := "grok-4-1-fast-reasoning".
Definition DefaultImageModel : string := "grok-2-image".
Definition DefaultKeepaliveTime : Z := 30 * Second.
Definition DefaultKeepaliveTimeout : Z := 10 * Second.

(** A [*tls.Config]; this package only passes it on. *)
Inductive tls_Config : Type := tls_Config_ref (id : nat).

Record Config := mkConfig {
  Endpoint : string;
  APIKey : option SecureString;
  Timeout : Z;
  cfg_DefaultModel : string;
  TLSConfig : option tls_Config;
  KeepaliveTime : Z;
  KeepaliveTimeout : Z;
  KeepalivePermitWithoutStream : option bool
}.

Definition errAPIKeyRequired : error :=
  xaiError (mkError ErrAuth "API key is required" None 0 codes.OK).

(** [func (c *Config) validate() error]: the error and the receiver
    after the call. *)
Definition Config_validate (c : Config) : option error * Config :=
  if SecureString_IsZero (APIKey c) then (Some errAPIKeyRequired, c)
  else
    (None,
     {| Endpoint := if String.eqb (Endpoint c) "" then DefaultEndpoint else Endpoint c;
        APIKey := APIKey c;
        Timeout := if Timeout c =? 0 then DefaultTimeout else Timeout c;
        cfg_DefaultModel :=
          if String.eqb (cfg_DefaultModel c) "" then DefaultModel else cfg_DefaultModel c;
        TLSConfig := TLSConfig c;
        KeepaliveTime := if KeepaliveTime c =? 0 then DefaultKeepaliveTime else KeepaliveTime c;
        KeepaliveTimeout :=
          if KeepaliveTimeout c =? 0 then DefaultKeepaliveTimeout else KeepaliveTimeout c;
        KeepalivePermitWithoutStream := KeepalivePermitWithoutStream c |}).

(** The keepalive parameters [New] dials with: none when
    [KeepaliveTime] is negative, else time, timeout and
    [PermitWithoutStream], which is true unless configured. *)
Definition keepaliveParams (c : Config) : option (Z * Z * bool) :=
  if 0 <=? KeepaliveTime c then
    Some (KeepaliveTime c, KeepaliveTimeout c, default true (KeepalivePermitWithoutStream c))
  else None.

Definition errAPIKeyNotSet : error :=
  xaiError (mkError ErrAuth "API key is not set or has been closed" None 0 codes.OK).

(** [func (b *bearerAuth) GetRequestMetadata]: the metadata map or the
    error. *)
Definition GetRequestMetadata (apiKey : option SecureString)
  : option (gmap string string) * option error :=
  match apiKey with
  | Some key =>
      if SecureString_IsZero (Some key) then (None, Some errAPIKeyNotSet)
      else (Some {[ "authorization" := "Bearer " +:+ SecureString_Value key ]}, None)
  | None => (None, Some errAPIKeyNotSet)
  end.

(* ===================================================================== *)
(** ** API key information *)
(* ===================================================================== *)

(** [type APIKeyStatus int] *)
Definition APIKeyStatus := Z.
Definition APIKeyActive      : APIKeyStatus := 0.
Definition APIKeyDisabled    : APIKeyStatus := 1.
Definition APIKeyBlocked     : APIKeyStatus := 2.
Definition APIKeyTeamBlocked : APIKeyStatus := 3.

Definition APIKeyStatus_String (s : APIKeyStatus) : string :=
  if s =? APIKeyActive then "active"
  else if s =? APIKeyDisabled then "disabled"
  else if s =? APIKeyBlocked then "blocked"
  else if s =? APIKeyTeamBlocked then "team_blocked"
  else "unknown".

(** The fields of the wire message [ApiKey] that the code reads. *)
Record v1_ApiKey := mk_v1_ApiKey {
  ak_RedactedApiKey : string;
  ak_ApiKeyId : string;
  ak_Name : string;
  ak_UserId : string;
  ak_TeamId : string;
  ak_Acls : list string;
  ak_ModifiedBy : string;
  ak_Disabled : bool;
  ak_ApiKeyBlocked : bool;
  ak_TeamBlocked : bool;
  ak_CreateTime : option (Z * Z);
  ak_ModifyTime : option (Z * Z)
}.

Record APIKeyInfo := mkAPIKeyInfo {
  RedactedKey : string;
  KeyID : string;
  key_Name : string;
  UserID : string;
  TeamID : string;
  ACLs : list string;
  key_Status : APIKeyStatus;
  CreatedAt : option (Z * Z);
  ModifiedAt : option (Z * Z);
  ModifiedBy : string
}.

Definition IsActive (k : APIKeyInfo) : bool := key_Status k =? APIKeyActive.

(** [func (k *APIKeyInfo) HasACL(acl string) bool] *)
Fixpoint anyACL (acl : string) (acls : list string) : bool :=
  match acls with
  | [] => false
  | a :: rest => if String.eqb a acl then true else anyACL acl rest
  end.

Definition HasACL (k : APIKeyInfo) (acl : string) : bool := anyACL acl (ACLs k).

(** [func (c *Client) GetAPIKeyInfo], after the RPC has returned. *)
Definition GetAPIKeyInfo (rpc : v1_ApiKey + error) : option APIKeyInfo * option error :=
  match rpc with
  | inr e => (None, option_map xaiError (FromGRPCError (Some e)))
  | inl resp =>
      (Some {| RedactedKey := ak_RedactedApiKey resp;
               KeyID := ak_ApiKeyId resp;
               key_Name := ak_Name resp;
               UserID := ak_UserId resp;
               TeamID := ak_TeamId resp;
               ACLs := ak_Acls resp;
               key_Status :=
                 if ak_Disabled resp then APIKeyDisabled
                 else if ak_ApiKeyBlocked resp then APIKeyBlocked
                 else if ak_TeamBlocked resp then APIKeyTeamBlocked
                 else APIKeyActive;
               CreatedAt := ak_CreateTime resp;
               ModifiedAt := ak_ModifyTime resp;
               ModifiedBy := ak_ModifiedBy resp |},
       None)
  end.

(* ===================================================================== *)
(** ** chat_request.go: what a call appends and which field it writes *)
(* ===================================================================== *)

(** The message a call appends to the conversation, if it is one of
    the six message methods. *)
Definition messageOf (c : Call) : list v1.Message :=
  match c with
  | SystemMessage text => [textMessage v1.ROLE_SYSTEM text]
  | UserMessage text => [textMessage v1.ROLE_USER text]
  | UserWithImage text imageURL =>
      [v1.mkMessage v1.ROLE_USER [v1.Content_Text text; v1.Content_ImageUrl imageURL] None]
  | AssistantMessage text => [textMessage v1.ROLE_ASSISTANT text]
  | ToolResult toolCallID result =>
      [v1.mkMessage v1.ROLE_TOOL [v1.Content_Text result] (Some toolCallID)]
  | DeveloperMessage text => [textMessage v1.ROLE_DEVELOPER text]
  | _ => []
  end.

(** The tools a call registers. *)
Definition toolsOf (c : Call) : list Tool :=
  match c with
  | AddTool tool => [tool]
  | AddTools ts => ts
  | _ => []
  end.

(** The field of the builder a call writes, by its position in the
    struct; [WithLogprobs] writes [logprobs] and [topLogprobs] and is
    the only writer of either. *)
Definition slot (c : Call) : nat :=
  match c with
  | SystemMessage _ | UserMessage _ | UserWithImage _ _ | AssistantMessage _
  | ToolResult _ _ | DeveloperMessage _ => 0
  | WithModel _ => 1
  | WithUser _ => 2
  | WithMaxTokens _ => 3
  | WithSeed _ => 4
  | WithStop _ => 5
  | WithTemperature _ => 6
  | WithTopP _ => 7
  | WithLogprobs _ => 8
  | AddTool _ | AddTools _ => 10
  | WithToolChoice _ => 11
  | WithResponseFormat _ => 12
  | WithFrequencyPenalty _ => 13
  | WithPresencePenalty _ => 14
  | WithReasoningEffort _ => 15
  | WithParallelToolCalls _ => 16
  | WithStoreMessages _ => 17
  | WithMaxTurns _ => 18
  | IncludeWebSearchOutput | IncludeXSearchOutput | IncludeCodeExecutionOutput
  | IncludeInlineCitations | IncludeVerboseStreaming => 19
  | WithPreviousResponseId _ => 20
  | WithEncryptedContent _ => 21
  end%nat.

(** A message as the builder's methods make them: a tool result carries
    the id of its call, no other message carries one, and the content
    starts with a text part. *)
Definition wellFormedMessage (m : v1.Message) : Prop :=
  (v1.m_Role m = v1.ROLE_TOOL <-> is_Some (v1.m_ToolCallId m))
  /\ exists text rest, v1.m_Content m = v1.Content_Text text :: rest.

(* ===================================================================== *)
(** ** Scenarios of a deferred completion, continued *)
(* ===================================================================== *)

(** The [k]-th poll of a request returns a response. *)
Definition pollReturns (w : World) (requestID : string) (k : nat)
    (resp : v1.GetDeferredCompletionResponse) : Prop :=
  rpcResult w requestID k = inl resp.

(** The [k]-th poll of a request fails in the transport. *)
Definition pollFails (w : World) (requestID : string) (k : nat) (e : error) : Prop :=
  rpcResult w requestID k = inr e.

(** A world in which every poll reports the wire status 0, which the
    code does not name. *)
Definition unnamedForever : World :=
  mkWorld (fun _ => 0)
          (fun _ _ => inl (v1.mkDeferred (v1.DeferredStatus_other 0) None))
          None context.Canceled (fun _ => true).

(** A world in which the first poll reports [PENDING] and the second
    fails in the transport with status [Internal]; each poll takes 2. *)
Definition failsAtSecondPoll : World :=
  mkWorld (fun _ => 2)
          (fun _ k => match k with
                      | O => inl (v1.mkDeferred v1.PENDING None)
                      | S _ => inr (statusError codes.Internal "backend crashed")
                      end)
          None context.Canceled (fun _ => true).

(** What a stream stores is nil or an [*Error] of this package. *)
Definition storesTranslated (s : ChunkStream) : Prop :=
  err s = None \/ exists x, err s = Some (xaiError x).

(** What a pull may return: a chunk, the end of the stream, or an
    [*Error] of this package. *)
Definition pullResult (r : option ChatChunk * option error) : Prop :=
  (exists c, r = (Some c, None))
  \/ r = (None, Some io_EOF)
  \/ exists x, r = (None, Some (xaiError x)).

(** A world in which the completion is pending for three polls and done
    at the fourth, each poll taking no time. *)
Definition doneAtFourthPoll (payload : v1.GetChatCompletionResponse) : World :=
  mkWorld (fun _ => 0)
          (fun _ k => inl (if (k <? 3)%nat then v1.mkDeferred v1.PENDING None
                           else v1.mkDeferred v1.DONE (Some payload)))
          None context.Canceled (fun _ => true).

(* ===================================================================== *)
(** * Properties *)
(* ===================================================================== *)

(** ** Error translation *)

Section ErrorTranslation.

Lemma FromError_status (c : codes.Code) (msg : string) :
  status.FromError (statusError c msg) = (status.mkStatus c msg, true).
Proof. reflexivity. Qed.

(** The switch of [FromGRPCError] only sets [Code] and [Message]. *)
Lemma FromGRPCError_status_GRPCCode (c : codes.Code) (msg : string) :
  option_map GRPCCode (FromGRPCError (Some (statusError c msg))) = Some c.
Proof.
  unfold FromGRPCError. rewrite FromError_status. cbn [negb status.code status.message].
  repeat match goal with
         | |- context [if ?b then _ else _] => destruct b
         end; reflexivity.
Qed.

Lemma FromGRPCError_status_Cause (c : codes.Code) (msg : string) :
  option_map Cause (FromGRPCError (Some (statusError c msg)))
  = Some (Some (statusError c msg)).
Proof.
  unfold FromGRPCError. rewrite FromError_status. cbn [negb status.code status.message].
  repeat match goal with
         | |- context [if ?b then _ else _] => destruct b
         end; reflexivity.
Qed.

(** A code that is none of the table's falls through every case. *)
Lemma FromGRPCError_default (c : codes.Code) (msg : string) :
  ~ In c (map fst mappingTable) ->
  option_map Code (FromGRPCError (Some (statusError c msg))) = Some ErrUnknown.
Proof.
  intros Hout. unfold FromGRPCError. rewrite FromError_status.
  cbn [negb status.code status.message].
  repeat match goal with
         | |- context [(c =? ?k)%N] =>
             destruct (N.eqb_spec c k) as [-> | _];
             [ exfalso; apply Hout; cbn; tauto | ]
         end.
  reflexivity.
Qed.

(** An error without a gRPC status anywhere on its chain is of kind
    [Unknown], with its own text as message. *)
Lemma FromGRPCError_not_status (e : error) :
  status.As_grpcstatus e = None ->
  FromGRPCError (Some e) = Some (mkError ErrUnknown (error_Error e) (Some e) 0 codes.OK).
Proof.
  intros Hno. unfold FromGRPCError, status.FromError.
  destruct e; cbn in Hno |- *; try discriminate; try reflexivity;
    rewrite ?Hno; reflexivity.
Qed.

(** The kind depends on the transport code alone, also when the
    status error is found behind wrappers. *)
Lemma FromGRPCError_kind_by_code (e : error) (st : status.Status) :
  status.As_grpcstatus e = Some st ->
  option_map Code (FromGRPCError (Some e))
  = option_map Code (FromGRPCError (Some (statusError (status.code st) ""))).
Proof.
  intros Hst. unfold FromGRPCError at 2. rewrite FromError_status.
  unfold FromGRPCError, status.FromError.
  destruct e; cbn in Hst; try discriminate.
  - injection Hst as <-. cbn [negb status.code status.message].
    repeat match goal with
           | |- context [if ?b then _ else _] => destruct b
           end; reflexivity.
  - cbn [status.As_grpcstatus]. rewrite Hst. cbn [negb status.code status.message].
    repeat match goal with
           | |- context [if ?b then _ else _] => destruct b
           end; reflexivity.
  - cbn [status.As_grpcstatus]. rewrite Hst. cbn [negb status.code status.message].
    repeat match goal with
           | |- context [if ?b then _ else _] => destruct b
           end; reflexivity.
Qed.

(** Every error translates to an error. *)
Lemma FromGRPCError_some (e : error) : exists x, FromGRPCError (Some e) = Some x.
Proof.
  unfold FromGRPCError.
  destruct (status.FromError e) as [st ok]. destruct ok; cbn [negb]; eauto.
Qed.

(** C1.  For each row of the mapping table, a status error with the
    row's transport code translates to the row's kind; a status error
    with any other code, and an error that carries no status at all,
    translate to [Unknown]; the original transport code is kept; the
    kind of an error that wraps a status is the kind of the wrapped
    code; and the translation is a function of its input that yields
    an error for every error and nil for nil. *)
Theorem FromGRPCError_mapping_table :
  Forall (fun row =>
            forall msg,
              option_map Code (FromGRPCError (Some (statusError (fst row) msg)))
              = Some (snd row)) mappingTable
  /\ (forall c msg,
        ~ In c (map fst mappingTable) ->
        option_map Code (FromGRPCError (Some (statusError c msg))) = Some ErrUnknown)
  /\ (forall c msg,
        option_map GRPCCode (FromGRPCError (Some (statusError c msg))) = Some c)
  /\ (forall e,
        status.As_grpcstatus e = None ->
        option_map Code (FromGRPCError (Some e)) = Some ErrUnknown)
  /\ (forall e st,
        status.As_grpcstatus e = Some st ->
        option_map Code (FromGRPCError (Some e))
        = option_map Code (FromGRPCError (Some (statusError (status.code st) ""))))
  /\ (forall e, exists x, FromGRPCError (Some e) = Some x)
  /\ FromGRPCError None = None.
Proof.
  split; [ | split; [ | split; [ | split; [ | split; [ | split ] ] ] ] ].
  - unfold mappingTable. repeat constructor.
  - apply FromGRPCError_default.
  - apply FromGRPCError_status_GRPCCode.
  - intros e Hno. rewrite (FromGRPCError_not_status e Hno). reflexivity.
  - apply FromGRPCError_kind_by_code.
  - apply FromGRPCError_some.
  - reflexivity.
Qed.

(** The table at work on the errors the tests build with
    [status.Error(code, "test message")]. *)
Lemma FromGRPCError_mapping_table_witness :
  option_map Code (FromGRPCError (Some (statusError codes.Unauthenticated "test message")))
  = Some ErrAuth
  /\ option_map Code (FromGRPCError (Some (statusError codes.AlreadyExists "test message")))
     = Some ErrUnknown.
Proof.
  destruct FromGRPCError_mapping_table as (Htable & Hout & _).
  split.
  - exact (proj1 (List.Forall_forall _ _) Htable (codes.Unauthenticated, ErrAuth)
             ltac:(cbn; tauto) "test message").
  - apply Hout. cbn. unfold codes.AlreadyExists. intuition discriminate.
Defined.

End ErrorTranslation.

(** ** Retryability and wrapping *)

Section Classification.

(** C2.  [IsRetryable] is true exactly on the four retryable kinds,
    false on each of the six other named kinds and on every other
    number, and it reads nothing but the [Code] field. *)
Theorem IsRetryable_exactly_retryable_kinds :
  forall e : Error,
    (IsRetryable e = true <-> In (Code e) retryableKinds)
    /\ (IsRetryable e = false <-> ~ In (Code e) retryableKinds)
    /\ (In (Code e) [ErrAuth; ErrInvalidRequest; ErrNotFound; ErrCanceled;
                     ErrResourceExhausted; ErrUnknown] ->
        IsRetryable e = false)
    /\ (forall e' : Error, Code e' = Code e -> IsRetryable e' = IsRetryable e).
Proof.
  intros e.
  assert (Hiff : IsRetryable e = true <-> In (Code e) retryableKinds).
  { unfold IsRetryable, retryableKinds, ErrRateLimit, ErrUnavailable, ErrTimeout,
      ErrServerError. cbn [In].
    destruct (Z.eqb_spec (Code e) 2), (Z.eqb_spec (Code e) 6),
      (Z.eqb_spec (Code e) 7), (Z.eqb_spec (Code e) 5); cbn; split; intros H;
      try reflexivity; try discriminate; try tauto;
      intuition congruence. }
  split; [exact Hiff | ]. split; [ | split ].
  - rewrite <- Hiff. destruct (IsRetryable e); split; congruence.
  - intros Hin. destruct (IsRetryable e) eqn:Hr; [ | reflexivity ].
    pose proof (proj1 Hiff eq_refl) as Hk. exfalso. revert Hin Hk.
    unfold retryableKinds, ErrAuth, ErrInvalidRequest, ErrNotFound, ErrCanceled,
      ErrResourceExhausted, ErrUnknown, ErrRateLimit, ErrUnavailable, ErrTimeout,
      ErrServerError. cbn [In]. lia.
  - intros e' Heq. unfold IsRetryable. rewrite Heq. reflexivity.
Qed.

Lemma IsRetryable_exactly_retryable_kinds_witness :
  IsRetryable (mkError ErrCanceled "stopped" None 0 codes.Canceled) = false.
Proof.
  apply (IsRetryable_exactly_retryable_kinds
           (mkError ErrCanceled "stopped" None 0 codes.Canceled)).
  cbn. tauto.
Defined.

(** [errors.As] walks the [Unwrap] chain, but goes no further than the
    first [*Error]. *)
Lemma errors_As_Error_first (e : error) :
  errors_As_Error e = firstError (chain e).
Proof.
  induction e as [ | s | c msg | msg inner IH | x ]; cbn; try reflexivity.
  exact IH.
Qed.

(** The chain is the error followed by the chain of what it unwraps
    to. *)
Lemma chain_Unwrap (e : error) :
  chain e = e :: match Unwrap e with
                 | Some inner => chain inner
                 | None => []
                 end.
Proof. destruct e; reflexivity. Qed.

Lemma firstError_some (l : list error) :
  (exists x, In (xaiError x) l) -> exists w, firstError l = Some w.
Proof.
  induction l as [ | a l IH ]; intros [x Hin]; [ destruct Hin | ].
  destruct a; cbn; eauto;
    (destruct Hin as [Heq | Hin]; [ discriminate | apply IH; eauto ]).
Qed.

(** C10.  When the chain of a non-nil error contains an [*Error],
    [WrapError] returns a new [*Error] that has the [Code], the
    [RetryAfter] and the [GRPCCode] of the first one found there;
    retryability and matching by kind, in either direction, are those
    of the wrapped error.  A nil error stays nil. *)
Theorem WrapError_keeps_classification :
  (forall (e : error) (message : string),
      (exists x, In (xaiError x) (chain e)) ->
      exists wrapped new : Error,
        firstError (chain e) = Some wrapped
        /\ WrapError (Some e) message = Some (xaiError new)
        /\ Code new = Code wrapped
        /\ RetryAfter new = RetryAfter wrapped
        /\ GRPCCode new = GRPCCode wrapped
        /\ IsRetryable new = IsRetryable wrapped
        /\ (forall target, Is new target = Is wrapped target)
        /\ (forall other : Error,
              Is other (xaiError new) = Is other (xaiError wrapped)))
  /\ (forall message, WrapError None message = None).
Proof.
  split; [ | reflexivity ].
  intros e message Hin.
  destruct (firstError_some _ Hin) as [wrapped Hw].
  exists wrapped. eexists. split; [ exact Hw | ].
  unfold WrapError. rewrite errors_As_Error_first, Hw.
  split; [ reflexivity | ].
  repeat split.
Qed.

Lemma WrapError_keeps_classification_witness :
  exists wrapped new : Error,
    firstError (chain (wrapError "poll: rate_limit_error: slow down"
                         (xaiError (mkError ErrRateLimit "slow down" None 5
                                      codes.ResourceExhausted))))
    = Some wrapped
    /\ WrapError
         (Some (wrapError "poll: rate_limit_error: slow down"
                  (xaiError (mkError ErrRateLimit "slow down" None 5
                               codes.ResourceExhausted))))
         "chat" = Some (xaiError new)
    /\ Code new = Code wrapped
    /\ RetryAfter new = RetryAfter wrapped
    /\ GRPCCode new = GRPCCode wrapped
    /\ IsRetryable new = IsRetryable wrapped
    /\ (forall target, Is new target = Is wrapped target)
    /\ (forall other : Error,
          Is other (xaiError new) = Is other (xaiError wrapped)).
Proof.
  apply (proj1 WrapError_keeps_classification).
  eexists. cbn. right. left. reflexivity.
Defined.

End Classification.

(** ** The chunk stream *)

Section Streaming.

(** Once an error is stored, [Next] returns it and leaves the stream,
    transport included, as it was. *)
Lemma Next_stored (s : ChunkStream) (e : error) :
  err s = Some e -> Next s = ((None, Some e), s).
Proof. intros H. unfold Next. rewrite H. reflexivity. Qed.

Lemma pulls_stored (s : ChunkStream) (e : error) (n : nat) :
  err s = Some e -> pulls n s = (repeat (None, Some e) n, s).
Proof.
  intros H. induction n as [ | n IH ]; [ reflexivity | ].
  cbn [pulls repeat]. rewrite (Next_stored s e H), IH. reflexivity.
Qed.

(** What [Next] returns with an error other than [io.EOF] is what it
    has stored. *)
Lemma Next_error_stored (s s' : ChunkStream) (r : option ChatChunk) (e : error) :
  Next s = ((r, Some e), s') -> e <> io_EOF -> r = None /\ err s' = Some e.
Proof.
  unfold Next. destruct (err s) as [e0 | ] eqn:Hs.
  - intros [= <- <- <-] _. auto.
  - unfold Recv. destruct (recvs (stream s) (polled (stream s))) as [chunk [re | ]].
    + destruct re; intros [= <- <- <-] Hne;
        solve [ congruence | cbn; auto ].
    + intros [= _ Habs]. 
Qed.

(** A pull that meets [io.EOF] on an open stream reports it, stores
    nothing, and has polled the transport once. *)
Lemma Next_EOF (s : ChunkStream) (chunk : option v1.GetChatCompletionChunk) :
  err s = None ->
  recvs (stream s) (polled (stream s)) = (chunk, Some io_EOF) ->
  Next s = ((None, Some io_EOF),
            mkChunkStream (mkTransport (recvs (stream s)) (S (polled (stream s)))) None).
Proof. intros Hs Hr. unfold Next, Recv. rewrite Hs, Hr. reflexivity. Qed.

(** A pull that receives a chunk on an open stream converts it. *)
Lemma Next_chunk (s : ChunkStream) (chunk : option v1.GetChatCompletionChunk) :
  err s = None ->
  recvs (stream s) (polled (stream s)) = (chunk, None) ->
  Next s = ((Some (chunkFromProto chunk), None),
            mkChunkStream (mkTransport (recvs (stream s)) (S (polled (stream s)))) None).
Proof. intros Hs Hr. unfold Next, Recv. rewrite Hs, Hr. reflexivity. Qed.

(** C4.  When a pull returns an error other than [io.EOF], it returns no
    chunk, and any number of further pulls return that same error and no
    chunk, leaving the stream as it was, so that the transport is not
    polled again.  A pull of an open stream that meets the end of the
    stream returns [io.EOF] and stores no error: the next pull polls the
    transport again and returns what it delivers. *)
Theorem Next_error_is_sticky :
  (forall (s s' : ChunkStream) (r : option ChatChunk) (e : error),
      Next s = ((r, Some e), s') ->
      e <> io_EOF ->
      r = None
      /\ forall n : nat,
          pulls n s' = (repeat (None, Some e) n, s')
          /\ polled (stream (snd (pulls n s'))) = polled (stream s'))
  /\ (forall (s : ChunkStream) (chunk : option v1.GetChatCompletionChunk),
        err s = None ->
        recvs (stream s) (polled (stream s)) = (chunk, Some io_EOF) ->
        exists s',
          Next s = ((None, Some io_EOF), s')
          /\ err s' = None
          /\ Err s' = None
          /\ polled (stream s') = S (polled (stream s))
          /\ forall next,
              recvs (stream s) (S (polled (stream s))) = (next, None) ->
              fst (Next s') = (Some (chunkFromProto next), None)).
Proof.
  split.
  - intros s s' r e HN Hne.
    destruct (Next_error_stored s s' r e HN Hne) as [-> Hs'].
    split; [ reflexivity | ]. intros n.
    rewrite (pulls_stored s' e n Hs'). split; reflexivity.
  - intros s chunk Hs Hr. eexists. split; [ exact (Next_EOF s chunk Hs Hr) | ].
    repeat split. intros next Hnext.
    rewrite (Next_chunk _ next); [ reflexivity | reflexivity | exact Hnext ].
Qed.

(** A transport that fails with [Unavailable] on its first [Recv]. *)
Lemma Next_error_is_sticky_witness :
  let t := mkTransport
             (fun k => match k with
                       | O => (None, Some (statusError codes.Unavailable "connection lost"))
                       | S _ => (Some v1.zeroChunk, None)
                       end) 0 in
  let e := xaiError (mkError ErrUnavailable "connection lost"
                       (Some (statusError codes.Unavailable "connection lost")) 0
                       codes.Unavailable) in
  pulls 3 (snd (Next (openStream t)))
  = ([(None, Some e); (None, Some e); (None, Some e)], snd (Next (openStream t))).
Proof.
  intros t e.
  refine (proj1 (proj2 (proj1 Next_error_is_sticky (openStream t) _ None e _ _) 3%nat)).
  - reflexivity.
  - discriminate.
Defined.

End Streaming.

(** ** Tool calls across the chunks of a stream *)

Section Reconciliation.

(** Records for other ids leave the entry of an id alone. *)
Lemma foldl_reconcileStep_other (id : string) (tcs : list (option ToolCallInfo)) :
  forall m : gmap string ToolCallInfo,
    Forall (fun tc => forall info, tc = Some info -> ID info <> id) tcs ->
    foldl reconcileStep m tcs !! id = m !! id.
Proof.
  induction tcs as [ | tc tcs IH ]; intros m Hall; [ reflexivity | ].
  apply Forall_cons in Hall as [Htc Hall]. cbn [foldl].
  rewrite (IH _ Hall). destruct tc as [info | ]; [ | reflexivity ].
  cbn. apply lookup_insert_ne. exact (Htc info eq_refl).
Qed.

(** The entry of an id is the last record produced for it. *)
Lemma reconcile_last (info : ToolCallInfo) (earlier later : list (option ToolCallInfo)) :
  Forall (fun tc => forall i, tc = Some i -> ID i <> ID info) later ->
  reconcile (earlier ++ Some info :: later)%list !! ID info = Some info.
Proof.
  intros Hlater. unfold reconcile. rewrite foldl_app. cbn [foldl].
  rewrite (foldl_reconcileStep_other _ _ _ Hlater). cbn.
  apply lookup_insert_eq.
Qed.

(** What [chunkFromProto] makes of the tool calls of a fragment. *)
Lemma ToolCalls_chunkFromProto (c : v1.GetChatCompletionChunk) :
  ToolCalls (chunkFromProto (Some c)) = map toolCallFromProto (fragmentToolCalls c).
Proof.
  unfold chunkFromProto, fragmentToolCalls. cbn.
  destruct (head (v1.c_Outputs c)) as [o | ]; [ | reflexivity ].
  cbn. destruct (v1.oc_Delta o); reflexivity.
Qed.

(** [toolCallFromProto] keeps the id. *)
Lemma toolCallFromProto_unreferenced (id : string) (tcs : list (option v1.ToolCall)) :
  existsb (references id) tcs = false ->
  Forall (fun tc => forall i, tc = Some i -> ID i <> id) (map toolCallFromProto tcs).
Proof.
  induction tcs as [ | tc tcs IH ]; cbn; intros H; [ constructor | ].
  apply orb_false_iff in H as [Htc H]. constructor; [ | exact (IH H) ].
  intros i Hi. destruct tc as [t | ]; [ | discriminate ].
  injection Hi as <-. cbn in *. apply String.eqb_neq. exact Htc.
Qed.

Lemma collectToolCalls_step (fuel : nat) (s : ChunkStream) (acc : list (option ToolCallInfo)) :
  collectToolCalls (S fuel) s acc
  = match Next s with
    | ((_, Some io_EOF), _) => Some (acc, None)
    | ((_, Some e), _) => Some (acc, Some e)
    | ((Some chunk, None), s') => collectToolCalls fuel s' (acc ++ ToolCalls chunk)
    | ((None, None), _) => None
    end.
Proof. reflexivity. Qed.

Lemma collectToolCalls_from (recv : nat -> option v1.GetChatCompletionChunk * option error)
    (rest : list v1.GetChatCompletionChunk) :
  forall (k : nat) (acc : list (option ToolCallInfo)),
    (forall i, recv (k + i)%nat = match rest !! i with
                                  | Some c => (Some c, None)
                                  | None => (None, Some io_EOF)
                                  end) ->
    collectToolCalls (S (length rest)) (mkChunkStream (mkTransport recv k) None) acc
    = Some ((acc ++ collected rest)%list, None).
Proof.
  induction rest as [ | c rest IH ]; intros k acc Hrecv;
    rewrite collectToolCalls_step;
    pose proof (Hrecv 0%nat) as H0; rewrite Nat.add_0_r in H0; cbn in H0.
  - rewrite (Next_EOF (mkChunkStream (mkTransport recv k) None) None eq_refl H0).
    unfold collected. cbn. rewrite app_nil_r. reflexivity.
  - rewrite (Next_chunk (mkChunkStream (mkTransport recv k) None) (Some c) eq_refl H0).
    cbn [stream polled recvs length]. rewrite IH.
    + rewrite ToolCalls_chunkFromProto. unfold collected. cbn [map concat].
      rewrite <- app_assoc. reflexivity.
    + intros i. specialize (Hrecv (S i)). rewrite Nat.add_succ_r in Hrecv. exact Hrecv.
Qed.

Lemma collectToolCalls_scripted (frags : list v1.GetChatCompletionChunk) :
  collectToolCalls (S (length frags)) (openStream (scripted frags)) []
  = Some (collected frags, None).
Proof.
  unfold openStream, scripted. rewrite collectToolCalls_from; [ reflexivity | ].
  intros i. reflexivity.
Qed.

Lemma collected_app (a b : list v1.GetChatCompletionChunk) :
  collected (a ++ b)%list = (collected a ++ collected b)%list.
Proof. unfold collected. rewrite map_app, concat_app. reflexivity. Qed.

Lemma collected_unmentioned (id : string) (frags : list v1.GetChatCompletionChunk) :
  Forall (fun c => mentions id c = false) frags ->
  Forall (fun tc => forall i, tc = Some i -> ID i <> id) (collected frags).
Proof.
  induction 1 as [ | c frags Hc _ IH ]; [ constructor | ].
  unfold collected. cbn [map concat]. apply Forall_app. split; [ | exact IH ].
  apply toolCallFromProto_unreferenced. exact Hc.
Qed.

(** C3.  In a stream in which a fragment references tool call [tc_1]
    with a pending status and the partial argument text, a later
    fragment references [tc_1] with status completed and the full
    argument text, and no fragment after that one references [tc_1], the
    caller's loop runs to the end of the stream without error, and the
    entry of [tc_1] among the collected tool calls keyed by call id is
    completed and carries the argument text of the second fragment,
    which is not the two texts joined. *)
Theorem reconciled_tool_call_is_the_last_fragment :
  forall (before between after : list v1.GetChatCompletionChunk)
         (ty1 ty2 : v1.ToolCallType) (pending : Z) (name : string),
    Forall (fun c => mentions "tc_1" c = false) after ->
    let first :=
      v1.mkToolCall "tc_1" ty1 (v1.ToolCallStatus_other pending) None
        (Some (v1.mkFunctionCall name argsPartial)) in
    let second :=
      v1.mkToolCall "tc_1" ty2 v1.TOOL_CALL_STATUS_COMPLETED None
        (Some (v1.mkFunctionCall name argsFull)) in
    let frags :=
      (before ++ [toolCallFragment first] ++ between
         ++ [toolCallFragment second] ++ after)%list in
    exists (all : list (option ToolCallInfo)) (info : ToolCallInfo),
      collectToolCalls (S (length frags)) (openStream (scripted frags)) [] = Some (all, None)
      /\ reconcile all !! "tc_1" = Some info
      /\ option_map Status (toolCallFromProto (Some first)) = Some ToolCallStatusPending
      /\ Status info = ToolCallStatusCompleted
      /\ Function_ info = Some (mkFunctionCall name argsFull)
      /\ argsFull <> argsPartial +:+ argsFull.
Proof.
  intros before between after ty1 ty2 pending name Hafter first second frags.
  destruct (toolCallFromProto (Some second)) as [i2 | ] eqn:Hi2; [ | discriminate ].
  exists (collected frags), i2.
  split; [ apply collectToolCalls_scripted | ].
  assert (Hid : ID i2 = "tc_1") by (injection Hi2 as <-; reflexivity).
  split.
  - subst frags. rewrite !collected_app.
    change (collected [toolCallFragment second])
      with [toolCallFromProto (Some second)].
    rewrite Hi2, !app_assoc, <- app_assoc, <- Hid.
    apply (reconcile_last i2). rewrite Hid.
    apply collected_unmentioned. exact Hafter.
  - injection Hi2 as <-. repeat split.
    intros Heq. apply (f_equal String.length) in Heq. vm_compute in Heq. discriminate.
Qed.

(** The scenario with nothing around the two fragments and a
    client-side function [f]. *)
Lemma reconciled_tool_call_is_the_last_fragment_witness :
  exists (all : list (option ToolCallInfo)) (info : ToolCallInfo),
    collectToolCalls 3
      (openStream
         (scripted
            [toolCallFragment
               (v1.mkToolCall "tc_1" v1.TOOL_CALL_TYPE_CLIENT_SIDE_TOOL
                  (v1.ToolCallStatus_other 0) None (Some (v1.mkFunctionCall "f" argsPartial)));
             toolCallFragment
               (v1.mkToolCall "tc_1" v1.TOOL_CALL_TYPE_CLIENT_SIDE_TOOL
                  v1.TOOL_CALL_STATUS_COMPLETED None
                  (Some (v1.mkFunctionCall "f" argsFull)))])) []
    = Some (all, None)
    /\ reconcile all !! "tc_1" = Some info
    /\ Status info = ToolCallStatusCompleted
    /\ Function_ info = Some (mkFunctionCall "f" argsFull).
Proof.
  destruct (reconciled_tool_call_is_the_last_fragment [] [] []
              v1.TOOL_CALL_TYPE_CLIENT_SIDE_TOOL v1.TOOL_CALL_TYPE_CLIENT_SIDE_TOOL
              0 "f" (List.Forall_nil _))
    as (all & info & Hrun & Hentry & _ & Hstatus & Hfn & _).
  exists all, info. repeat split; assumption.
Defined.

End Reconciliation.

(** ** Waiting for a deferred completion *)

Section Deferred.

Variable w : World.
Variable requestID : string.
Variables pollInterval deadline : Z.

Lemma waitLoop_expired (k : nat) (now : Z) :
  deadline <= now ->
  forall fuel, waitLoop fuel w requestID pollInterval deadline k now
               = Some ((None, Some errWaitTimeout), now).
Proof.
  intros Hlate fuel. destruct fuel; cbn [waitLoop];
    destruct (Z.ltb_spec now deadline); solve [ lia | reflexivity ].
Qed.

Lemma waitLoop_poll (fuel k : nat) (now : Z) :
  now < deadline ->
  waitLoop (S fuel) w requestID pollInterval deadline k now
  = let now1 := now + rpcLatency w k in
    match GetDeferred (rpcResult w requestID k) with
    | (_, Some e) => Some ((None, Some e), now1)
    | (None, None) => None
    | (Some resp, None) =>
        if String.eqb (def_Status resp) DeferredStatusCompleted then
          Some ((def_Response resp, None), now1)
        else if String.eqb (def_Status resp) DeferredStatusFailed then
          Some ((None, Some (errDeferredFailed (def_Error resp))), now1)
        else
          match selectWait w k now1 pollInterval with
          | (CtxDone, now2) =>
              Some ((None, option_map xaiError (FromGRPCError (Some (ctxErr w)))), now2)
          | (TimerFired, now2) =>
              waitLoop fuel w requestID pollInterval deadline (S k) now2
          end
    end.
Proof.
  intros Hearly. cbn [waitLoop].
  destruct (Z.ltb_spec now deadline); [ reflexivity | lia ].
Qed.

(** A poll that reports [PENDING] leads to the wait. *)
Lemma waitLoop_pending (fuel k : nat) (now : Z) :
  now < deadline ->
  pollReports w requestID k v1.PENDING ->
  waitLoop (S fuel) w requestID pollInterval deadline k now
  = match selectWait w k (now + rpcLatency w k) pollInterval with
    | (CtxDone, now2) =>
        Some ((None, option_map xaiError (FromGRPCError (Some (ctxErr w)))), now2)
    | (TimerFired, now2) =>
        waitLoop fuel w requestID pollInterval deadline (S k) now2
    end.
Proof.
  intros Hearly (resp & Hrpc & Hst). rewrite (waitLoop_poll _ _ _ Hearly).
  cbv zeta. unfold GetDeferred. rewrite Hrpc, Hst. reflexivity.
Qed.

(** A poll that reports [EXPIRED] ends the wait with the failure. *)
Lemma waitLoop_failed (fuel k : nat) (now : Z) :
  now < deadline ->
  pollReports w requestID k v1.EXPIRED ->
  waitLoop (S fuel) w requestID pollInterval deadline k now
  = Some ((None, Some (errDeferredFailed "deferred completion expired")),
          now + rpcLatency w k).
Proof.
  intros Hearly (resp & Hrpc & Hst). rewrite (waitLoop_poll _ _ _ Hearly).
  cbv zeta. unfold GetDeferred. rewrite Hrpc, Hst. reflexivity.
Qed.

(** Without a cancellation the timer of the wait fires. *)
Lemma selectWait_neverDone (k : nat) (now : Z) :
  neverDone w ->
  selectWait w k now pollInterval = (TimerFired, now + Z.max 0 pollInterval).
Proof. intros Hn. unfold selectWait. rewrite Hn. reflexivity. Qed.

(** A context that is done before the timer fires wins the [select],
    at the instant it is done or at once if it already was. *)
Lemma selectWait_cancelled (k : nat) (now tc : Z) :
  ctxDoneAt w = Some tc ->
  tc < now + Z.max 0 pollInterval ->
  0 < pollInterval ->
  selectWait w k now pollInterval = (CtxDone, Z.max now tc).
Proof.
  intros Hc Hbefore Hpos. unfold selectWait. rewrite Hc. cbv zeta.
  destruct (Z.ltb_spec (Z.max now tc) (now + Z.max 0 pollInterval)); [ reflexivity | lia ].
Qed.

Lemma elapsed_nonneg :
  latenciesNonNegative w -> forall n k, 0 <= elapsed w pollInterval k n.
Proof.
  intros Hlat n. induction n as [ | n IH ]; intros k; cbn [elapsed]; [ lia | ].
  specialize (IH (S k)). specialize (Hlat k). lia.
Qed.

(** When the timer wins the [select], the poll interval has passed. *)
Lemma selectWait_timer (k : nat) (now t : Z) :
  selectWait w k now pollInterval = (TimerFired, t) -> t = now + Z.max 0 pollInterval.
Proof.
  unfold selectWait. destruct (ctxDoneAt w) as [tc | ]; cbv zeta.
  - repeat match goal with
           | |- context [if ?b then _ else _] => destruct b
           end; intros [=]; congruence.
  - intros [=]. congruence.
Qed.

(** [GetDeferred] returns a response or an error, never neither. *)
Lemma GetDeferred_returns (rpc : v1.GetDeferredCompletionResponse + error) :
  (exists resp, GetDeferred rpc = (Some resp, None))
  \/ (exists e, GetDeferred rpc = (None, Some e)).
Proof.
  destruct rpc as [resp | e]; unfold GetDeferred.
  - left. eauto.
  - right. destruct (FromGRPCError_some e) as [x ->]. cbn. eauto.
Qed.

(** With a positive poll interval and polls that take no negative time
    the loop returns, whatever the service and the caller do, within as
    many polls as there are time units before the deadline. *)
Lemma waitLoop_returns :
  0 < pollInterval ->
  latenciesNonNegative w ->
  forall (fuel k : nat) (now : Z),
    deadline - now <= Z.of_nat fuel ->
    exists res, waitLoop fuel w requestID pollInterval deadline k now = Some res.
Proof.
  intros Hpos Hlat fuel.
  induction fuel as [ | fuel IH ]; intros k now Hfuel.
  - rewrite waitLoop_expired by lia. eauto.
  - destruct (Z.lt_ge_cases now deadline) as [Hearly | Hlate];
      [ | rewrite waitLoop_expired by lia; eauto ].
    rewrite (waitLoop_poll _ _ _ Hearly). cbv zeta.
    destruct (GetDeferred_returns (rpcResult w requestID k)) as [[resp ->] | [e ->]];
      [ | eauto ].
    destruct (String.eqb _ _); [ eauto | ].
    destruct (String.eqb _ _); [ eauto | ].
    destruct (selectWait w k (now + rpcLatency w k) pollInterval) as [[ | ] t] eqn:Hsel;
      [ eauto | ].
    apply selectWait_timer in Hsel. apply IH. specialize (Hlat k). lia.
Qed.

(** While the completion stays pending, nobody cancels and the poll
    interval is positive, every round moves the clock on, and the loop
    leaves through its deadline. *)
Lemma waitLoop_times_out :
  0 < pollInterval ->
  staysPending w requestID ->
  neverDone w ->
  latenciesNonNegative w ->
  forall (fuel k : nat) (now : Z),
    deadline - now <= Z.of_nat fuel ->
    exists t, waitLoop fuel w requestID pollInterval deadline k now
              = Some ((None, Some errWaitTimeout), t)
              /\ deadline <= t.
Proof.
  intros Hpos Hpend Hnever Hlat fuel.
  induction fuel as [ | fuel IH ]; intros k now Hfuel.
  - exists now. split; [ apply waitLoop_expired | ]; lia.
  - destruct (Z.lt_ge_cases now deadline) as [Hearly | Hlate].
    + rewrite (waitLoop_pending _ _ _ Hearly (Hpend k)), (selectWait_neverDone _ _ Hnever).
      apply IH. specialize (Hlat k). lia.
    + exists now. split; [ apply waitLoop_expired | ]; lia.
Qed.

(** When the polls report [PENDING] [n] times and then [EXPIRED], and
    that last poll starts before the deadline, the loop returns the
    failure when that poll returns. *)
Lemma waitLoop_fails :
  neverDone w ->
  latenciesNonNegative w ->
  forall (n fuel k : nat) (now : Z),
    (forall j, (j < n)%nat -> pollReports w requestID (k + j) v1.PENDING) ->
    pollReports w requestID (k + n) v1.EXPIRED ->
    now + elapsed w pollInterval k n < deadline ->
    (n < fuel)%nat ->
    waitLoop fuel w requestID pollInterval deadline k now
    = Some ((None, Some (errDeferredFailed "deferred completion expired")),
            now + elapsed w pollInterval k n + rpcLatency w (k + n)).
Proof.
  intros Hnever Hlat n.
  induction n as [ | n IH ]; intros fuel k now Hpend Hexp Htime Hfuel;
    (destruct fuel as [ | fuel ]; [ lia | ]); cbn [elapsed] in *.
  - rewrite Nat.add_0_r in *. rewrite waitLoop_failed; [ | lia | exact Hexp ].
    do 2 f_equal. lia.
  - pose proof (elapsed_nonneg Hlat n (S k)) as Hel. pose proof (Hlat k) as Hk.
    rewrite waitLoop_pending; [ | lia | ].
    + rewrite (selectWait_neverDone _ _ Hnever), (IH fuel (S k)).
      * do 2 f_equal. rewrite Nat.add_succ_r. cbn [Nat.add]. lia.
      * intros j Hj. replace (S k + j)%nat with (k + S j)%nat by lia. apply Hpend. lia.
      * replace (S k + n)%nat with (k + S n)%nat by lia. exact Hexp.
      * lia.
      * lia.
    + specialize (Hpend 0%nat). rewrite Nat.add_0_r in Hpend. apply Hpend. lia.
Qed.

(** When the caller's context is done during the wait that follows a
    pending poll, before the timer fires, the loop returns at that
    instant with the translation of [ctx.Err()]. *)
Lemma waitLoop_cancelled (fuel k : nat) (now tc : Z) :
  now < deadline ->
  0 < pollInterval ->
  pollReports w requestID k v1.PENDING ->
  ctxDoneAt w = Some tc ->
  tc < now + rpcLatency w k + pollInterval ->
  waitLoop (S fuel) w requestID pollInterval deadline k now
  = Some ((None, option_map xaiError (FromGRPCError (Some (ctxErr w)))),
          Z.max (now + rpcLatency w k) tc).
Proof.
  intros Hearly Hpos Hpend Hc Hbefore.
  rewrite (waitLoop_pending _ _ _ Hearly Hpend), (selectWait_cancelled _ _ tc Hc); lia || reflexivity.
Qed.

End Deferred.

(** C5.  A completion that never leaves [PENDING], polled at a positive
    interval by a caller that never cancels, makes [WaitForDeferred]
    return its own timeout error, of kind [Timeout] and not
    [ServerError], as soon as it is allowed as many polls as the timeout
    has units (two for an interval of 1 and a timeout of 2).  A poll
    that reports the failed state, reached before the deadline, makes it
    return an error of kind [ServerError] whose message carries the
    reported reason.  The two kinds differ. *)
Theorem WaitForDeferred_timeout_and_failure_differ :
  (forall (w : World) (requestID : string) (pollInterval timeout start : Z) (fuel : nat),
      0 < pollInterval ->
      staysPending w requestID ->
      neverDone w ->
      latenciesNonNegative w ->
      timeout <= Z.of_nat fuel ->
      exists (e : Error) (t : Z),
        WaitForDeferred fuel w requestID pollInterval timeout start
        = Some ((None, Some (xaiError e)), t)
        /\ Code e = ErrTimeout
        /\ Code e <> ErrServerError
        /\ start + timeout <= t)
  /\ (forall (w : World) (requestID : string) (pollInterval timeout start : Z)
            (fuel n : nat),
        neverDone w ->
        latenciesNonNegative w ->
        (forall j, (j < n)%nat -> pollReports w requestID j v1.PENDING) ->
        pollReports w requestID n v1.EXPIRED ->
        elapsed w pollInterval 0 n < timeout ->
        (n < fuel)%nat ->
        exists (e : Error) (t : Z),
          WaitForDeferred fuel w requestID pollInterval timeout start
          = Some ((None, Some (xaiError e)), t)
          /\ Code e = ErrServerError
          /\ Code e <> ErrTimeout
          /\ Message e = "deferred completion failed: " +:+ "deferred completion expired")
  /\ ErrServerError <> ErrTimeout.
Proof.
  split; [ | split ].
  - intros w requestID pollInterval timeout start fuel Hpos Hpend Hnever Hlat Hfuel.
    destruct (waitLoop_times_out w requestID pollInterval (start + timeout)
                Hpos Hpend Hnever Hlat fuel 0%nat start ltac:(lia)) as (t & Hrun & Ht).
    eexists _, t. unfold WaitForDeferred. rewrite Hrun.
    split; [ reflexivity | ]. repeat split; [ discriminate | exact Ht ].
  - intros w requestID pollInterval timeout start fuel n Hnever Hlat Hpend Hexp Htime Hfuel.
    eexists _, _. unfold WaitForDeferred.
    rewrite (waitLoop_fails w requestID pollInterval (start + timeout) Hnever Hlat
               n fuel 0%nat start Hpend Hexp ltac:(lia) Hfuel).
    split; [ reflexivity | ]. repeat split. discriminate.
  - discriminate.
Qed.

(** The scenario of the specification: poll interval 1, timeout 2, a
    completion that stays pending. *)
Lemma WaitForDeferred_timeout_and_failure_differ_witness :
  exists (e : Error) (t : Z),
    WaitForDeferred 2 pendingForever "req_1" 1 2 0 = Some ((None, Some (xaiError e)), t)
    /\ Code e = ErrTimeout
    /\ Code e <> ErrServerError
    /\ 0 + 2 <= t.
Proof.
  apply (proj1 WaitForDeferred_timeout_and_failure_differ pendingForever "req_1" 1 2 0 2%nat).
  - lia.
  - intros k. eexists. split; reflexivity.
  - reflexivity.
  - intros k. cbn. lia.
  - cbn. lia.
Defined.

(** The third poll reports the failure, well before a timeout of 10. *)
Example WaitForDeferred_expired_example :
  WaitForDeferred 5 expiresAtThirdPoll "req_1" 1 10 0
  = Some ((None, Some (errDeferredFailed "deferred completion expired")), 2).
Proof. reflexivity. Qed.

(** C6.  When the first poll reports [PENDING] and the caller cancels
    its context during the wait that follows, before the poll interval
    has passed, [WaitForDeferred] returns at the instant of the
    cancellation, without finishing the wait; the error it returns is
    the translation of [context.Canceled], which carries no gRPC status:
    its kind is [Unknown], not [Canceled]. *)
Theorem WaitForDeferred_cancelled_wait_is_Unknown :
  forall (w : World) (requestID : string) (pollInterval timeout start tc : Z) (fuel : nat),
    0 < timeout ->
    0 < pollInterval ->
    pollReports w requestID 0 v1.PENDING ->
    ctxDoneAt w = Some tc ->
    ctxErr w = context.Canceled ->
    start + rpcLatency w 0 <= tc < start + rpcLatency w 0 + pollInterval ->
    exists e : Error,
      WaitForDeferred (S fuel) w requestID pollInterval timeout start
      = Some ((None, Some (xaiError e)), tc)
      /\ Code e = ErrUnknown
      /\ Code e <> ErrCanceled
      /\ Message e = "context canceled"
      /\ Cause e = Some context.Canceled.
Proof.
  intros w requestID pollInterval timeout start tc fuel Htimeout Hpos Hpend Hc Herr Htc.
  unfold WaitForDeferred.
  rewrite (waitLoop_cancelled w requestID pollInterval (start + timeout) fuel 0 start tc);
    try assumption; try lia.
  rewrite Herr, Z.max_r by lia. eexists. split; [ reflexivity | ].
  repeat split. discriminate.
Qed.

(** The caller cancels at instant 5 of a wait of 10. *)
Lemma WaitForDeferred_cancelled_wait_is_Unknown_witness :
  exists e : Error,
    WaitForDeferred 1 cancelledAtFive "req_1" 10 100 0 = Some ((None, Some (xaiError e)), 5)
    /\ Code e = ErrUnknown
    /\ Code e <> ErrCanceled
    /\ Message e = "context canceled"
    /\ Cause e = Some context.Canceled.
Proof.
  apply (WaitForDeferred_cancelled_wait_is_Unknown cancelledAtFive "req_1" 10 100 0 5 0%nat).
  - lia.
  - lia.
  - eexists. split; reflexivity.
  - reflexivity.
  - reflexivity.
  - cbn. lia.
Defined.

(** A cancellation that reaches the caller through the RPC itself comes
    back as a status error and is of kind [Canceled]. *)
Example GetDeferred_cancelled_rpc :
  kindOf (snd (GetDeferred (inr (statusError codes.Canceled "context canceled"))))
  = Some ErrCanceled.
Proof. reflexivity. Qed.

(** ** The request builder *)

Section Builder.

(** [Build] in one piece: the request it returns, and the receiver it
    leaves, which is the one it found. *)
Lemma Build_unfold (defaultModel : string) (r : ChatRequest) :
  Build defaultModel r
  = (v1.mkRequest (messages r)
       (if String.eqb (model r) "" then defaultModel else model r)
       (user r) (stop r) (logprobs r) (storeMessages r) (includeOptions r)
       (useEncryptedContent r)
       (if String.eqb (previousResponseID r) "" then None else Some (previousResponseID r))
       (maxTokens r) (seed r) (temperature r) (topP r) (topLogprobs r)
       (frequencyPenalty r) (presencePenalty r)
       (option_map ReasoningEffort_toProto (reasoningEffort r))
       (parallelToolCalls r) (maxTurns r)
       (map Tool_toProto (tools r))
       (option_map ToolChoice_toProto (toolChoice r))
       (option_map (fun f => if f =? ResponseFormatJSON
                             then v1.FORMAT_TYPE_JSON_OBJECT
                             else v1.FORMAT_TYPE_TEXT) (responseFormat r)),
     r).
Proof. reflexivity. Qed.

Lemma Build_leaves_receiver (defaultModel : string) (r : ChatRequest) :
  snd (Build defaultModel r) = r.
Proof. rewrite Build_unfold. reflexivity. Qed.

(** C7.  For every state of the builder, in particular every state a
    chain of mutator calls reaches from [NewChatRequest], and every
    default model, two calls of [Build] in a row return requests that
    are equal field for field, and each leaves the builder in the state
    it found. *)
Theorem Build_twice_same_request :
  forall (r : ChatRequest) (defaultModel : string),
    let first := Build defaultModel r in
    let second := Build defaultModel (snd first) in
    fst first = fst second
    /\ snd first = r
    /\ snd second = r
    /\ forall cs : list Call,
        let built := Build defaultModel (calls cs NewChatRequest) in
        fst (Build defaultModel (snd built)) = fst built
        /\ snd built = calls cs NewChatRequest.
Proof.
  intros r defaultModel first second. subst first second.
  rewrite !Build_leaves_receiver. split; [ reflexivity | ].
  split; [ reflexivity | ]. split; [ reflexivity | ].
  intros cs built. subst built. rewrite Build_leaves_receiver. split; reflexivity.
Qed.

(** Every mutator but [WithModel] leaves the model alone. *)
Lemma apply_model (c : Call) (r : ChatRequest) :
  model (apply c r) = match c with
                      | WithModel m => m
                      | _ => model r
                      end.
Proof. destruct r, c; reflexivity. Qed.

Lemma calls_without_WithModel (cs : list Call) :
  forall r : ChatRequest,
    (forall m, ~ In (WithModel m) cs) ->
    model (calls cs r) = model r.
Proof.
  induction cs as [ | c cs IH ]; intros r Hno; [ reflexivity | ].
  unfold calls in *. cbn [foldl]. rewrite IH.
  - rewrite apply_model. destruct c; try reflexivity.
    exfalso. apply (Hno m). left. reflexivity.
  - intros m Hin. apply (Hno m). right. exact Hin.
Qed.

Lemma calls_app (cs cs' : list Call) (r : ChatRequest) :
  calls (cs ++ cs')%list r = calls cs' (calls cs r).
Proof. unfold calls. apply foldl_app. Qed.

(** C8.  The model of the built request is the default when the
    builder's model is the empty string, which it is when [WithModel]
    was never called, and the builder's model, whatever the default,
    when it is not empty, which it is after a last call of [WithModel]
    with a non-empty name. *)
Theorem Build_model_or_default :
  forall (r : ChatRequest) (defaultModel : string),
    (model r = "" -> v1.Model (fst (Build defaultModel r)) = defaultModel)
    /\ (model r <> "" -> v1.Model (fst (Build defaultModel r)) = model r)
    /\ (forall cs : list Call,
          (forall m, ~ In (WithModel m) cs) ->
          v1.Model (fst (Build defaultModel (calls cs NewChatRequest))) = defaultModel)
    /\ (forall (cs cs' : list Call) (m : string),
          (forall m', ~ In (WithModel m') cs') ->
          m <> "" ->
          v1.Model (fst (Build defaultModel (calls (cs ++ WithModel m :: cs')%list r))) = m).
Proof.
  intros r defaultModel.
  assert (Hempty : forall r0, model r0 = "" ->
                              v1.Model (fst (Build defaultModel r0)) = defaultModel).
  { intros r0 H. rewrite Build_unfold. cbn. rewrite H. reflexivity. }
  assert (Hset : forall r0, model r0 <> "" ->
                            v1.Model (fst (Build defaultModel r0)) = model r0).
  { intros r0 H. rewrite Build_unfold. cbn.
    destruct (String.eqb_spec (model r0) ""); [ contradiction | reflexivity ]. }
  split; [ apply Hempty | ]. split; [ apply Hset | ]. split.
  - intros cs Hno. apply Hempty. rewrite (calls_without_WithModel cs _ Hno). reflexivity.
  - intros cs cs' m Hno Hm.
    assert (Hmodel : model (calls (cs ++ WithModel m :: cs')%list r) = m).
    { rewrite calls_app. change (calls (WithModel m :: cs') (calls cs r))
        with (calls cs' (apply (WithModel m) (calls cs r))).
      rewrite (calls_without_WithModel cs' _ Hno), apply_model. reflexivity. }
    rewrite Hset; rewrite Hmodel; [ reflexivity | exact Hm ].
Qed.

Lemma Build_model_or_default_witness :
  v1.Model (fst (Build "grok-3"
                   (calls [SystemMessage "Be concise."; UserMessage "Hello"; WithMaxTokens 50]
                      NewChatRequest))) = "grok-3"
  /\ v1.Model (fst (Build "grok-3"
                      (calls ([UserMessage "Hello"] ++ WithModel "grok-4" :: [WithSeed 7])%list
                         NewChatRequest))) = "grok-4".
Proof.
  destruct (Build_model_or_default NewChatRequest "grok-3") as (_ & _ & Hnever & Hset).
  split.
  - apply Hnever. intros m [H | [H | [H | []]]]; discriminate.
  - apply Hset.
    + intros m [H | []]. discriminate.
    + discriminate.
Defined.

End Builder.

(** ** Catalog prices *)

Section Pricing.

(** The divisor is the number 10000, exactly. *)
Lemma divisor_exact :
  exists q, float64_value (float64_of_int 10000) = Some q /\ (q == 10000)%Q.
Proof. eexists. split; [ reflexivity | ]. vm_compute. reflexivity. Qed.

(** C9.  Each of the five prices of a converted language model is the
    [float64] quotient of its raw wire field, converted to [float64], by
    10000, and so are the two prices of an embedding model and the price
    per image; a raw field of 250000 gives the [float64] 25, exactly. *)
Theorem languageModelFromProto_prices_scaled_by_10000 :
  forall m : v1.LanguageModel,
    PromptTextPricing (languageModelFromProto m) = scaledPrice (v1.lm_PromptTextTokenPrice m)
    /\ PromptImagePricing (languageModelFromProto m)
       = scaledPrice (v1.lm_PromptImageTokenPrice m)
    /\ CachedPromptPricing (languageModelFromProto m)
       = scaledPrice (v1.lm_CachedPromptTokenPrice m)
    /\ CompletionPricing (languageModelFromProto m)
       = scaledPrice (v1.lm_CompletionTextTokenPrice m)
    /\ SearchPricing (languageModelFromProto m) = scaledPrice (v1.lm_SearchPrice m)
    /\ (forall text image : Z,
          embeddingPricesFromProto text image = (scaledPrice text, scaledPrice image))
    /\ (forall image : Z,
          pricePerImageFromProto image = PerMillionTokens (scaledPrice image))
    /\ PerMillionTokens (scaledPrice 250000) = float64_of_int 25
    /\ (exists q, float64_value (PerMillionTokens (scaledPrice 250000)) = Some q
                  /\ (q == 25)%Q)
    /\ (exists q, float64_value (float64_of_int 10000) = Some q /\ (q == 10000)%Q).
Proof.
  intros m. repeat (split; [ reflexivity | ]).
  split; [ | exact divisor_exact ].
  eexists. split; [ vm_compute; reflexivity | ]. vm_compute. reflexivity.
Qed.

(** A catalog entry whose completion price is 250000 on the wire costs
    25 per million tokens; a cached-prompt price of 7500 is 0.75. *)
Example languageModelFromProto_prices_example :
  let m := v1.mkLanguageModel "grok-4" [] "1.0" 131072 "fp" None [v1.TEXT; v1.IMAGE]
             [v1.TEXT] 30000 30000 7500 250000 0 in
  PerMillionTokens (CompletionPricing (languageModelFromProto m)) = float64_of_int 25
  /\ PerMillionTokens (PromptTextPricing (languageModelFromProto m)) = float64_of_int 3
  /\ PerMillionTokens (CachedPromptPricing (languageModelFromProto m))
     = S754_finite false 6755399441055744 (-53)
  /\ InputModalities (languageModelFromProto m) = [ModalityText; ModalityImage].
Proof. vm_compute. repeat split. Qed.

(** Whole prices up to 1000 come out exact. *)
Example scaledPrice_whole_units :
  forallb (fun k => SFeqb (PerMillionTokens (scaledPrice (10000 * Z.of_nat k)))
                          (float64_of_int (Z.of_nat k)))
          (seq 0 1001) = true.
Proof. vm_compute. reflexivity. Qed.

End Pricing.

(* ===================================================================== *)
(** * Further properties of the code *)
(* ===================================================================== *)

(** ** Errors: translation, wrapping and matching *)

Section ErrorsFurther.

(** The translation of an error is a fresh [*Error] whose cause is the
    error itself and which suggests no retry delay. *)
Lemma FromGRPCError_shape (e : error) :
  exists (k : ErrorCode) (m : string) (g : codes.Code),
    FromGRPCError (Some e) = Some (mkError k m (Some e) 0 g).
Proof.
  unfold FromGRPCError. destruct (status.FromError e) as [st ok].
  destruct ok; cbn [negb]; [ | eauto ].
  repeat match goal with
         | |- context [if ?b then _ else _] => destruct b
         end; cbn; eauto.
Qed.

Lemma FromGRPCError_GRPCCode_by_status (e : error) (st : status.Status) :
  status.As_grpcstatus e = Some st ->
  option_map GRPCCode (FromGRPCError (Some e)) = Some (status.code st).
Proof.
  intros Hst. unfold FromGRPCError, status.FromError.
  destruct e; cbn in Hst; try discriminate;
    [ injection Hst as <- | cbn [status.As_grpcstatus]; rewrite Hst
    | cbn [status.As_grpcstatus]; rewrite Hst ];
    cbn [negb status.code status.message];
    repeat match goal with
           | |- context [if ?b then _ else _] => destruct b
           end; reflexivity.
Qed.

(** X1.  The translation of a status error is retryable exactly for
    the six transport codes [ResourceExhausted], [Internal], [DataLoss],
    [Unavailable], [Aborted] and [DeadlineExceeded]. *)
Theorem FromGRPCError_retryable_codes :
  forall (c : codes.Code) (msg : string),
    option_map IsRetryable (FromGRPCError (Some (statusError c msg)))
    = Some (existsb (N.eqb c) retryableCodes).
Proof.
  intros c msg. unfold FromGRPCError. rewrite FromError_status.
  cbn [negb status.code status.message]. unfold retryableCodes. cbn [existsb].
  repeat match goal with
         | |- context [(c =? ?k)%N] =>
             destruct (N.eqb_spec c k) as [-> | ?]; [ reflexivity | ]
         end.
  reflexivity.
Qed.

(** X2.  Whatever the error, its translation has the error itself as
    cause, so that [Unwrap] gives it back and a gRPC status behind it
    stays within reach of [errors.As]; it never sets [RetryAfter]. *)
Theorem FromGRPCError_keeps_the_error :
  forall e : error,
    exists x : Error,
      FromGRPCError (Some e) = Some x
      /\ Cause x = Some e
      /\ Unwrap (xaiError x) = Some e
      /\ chain (xaiError x) = xaiError x :: chain e
      /\ status.As_grpcstatus (xaiError x) = status.As_grpcstatus e
      /\ RetryAfter x = 0.
Proof.
  intros e. destruct (FromGRPCError_shape e) as (k & m & g & ->).
  eexists. split; [ reflexivity | ]. repeat split.
Qed.

(** X3.  Translating a translated error changes neither its kind nor
    its transport code. *)
Theorem FromGRPCError_twice_same_kind :
  forall (e : error) (x : Error),
    FromGRPCError (Some e) = Some x ->
    exists y : Error,
      FromGRPCError (Some (xaiError x)) = Some y
      /\ Code y = Code x
      /\ GRPCCode y = GRPCCode x
      /\ IsRetryable y = IsRetryable x.
Proof.
  intros e x Hx.
  destruct (FromGRPCError_shape e) as (k & m & g & Hshape).
  rewrite Hshape in Hx. injection Hx as <-.
  destruct (FromGRPCError_shape (xaiError (mkError k m (Some e) 0 g)))
    as (k' & m' & g' & Hy).
  exists (mkError k' m' (Some (xaiError (mkError k m (Some e) 0 g))) 0 g').
  split; [ exact Hy | ].
  assert (Hkg : k' = k /\ g' = g).
  { destruct (status.As_grpcstatus e) as [st | ] eqn:Hst.
    - assert (Hst' : status.As_grpcstatus (xaiError (mkError k m (Some e) 0 g)) = Some st)
        by exact Hst.
      pose proof (FromGRPCError_kind_by_code _ _ Hst) as H1.
      pose proof (FromGRPCError_kind_by_code _ _ Hst') as H2.
      pose proof (FromGRPCError_GRPCCode_by_status _ _ Hst) as H3.
      pose proof (FromGRPCError_GRPCCode_by_status _ _ Hst') as H4.
      rewrite Hshape in H1, H3. rewrite Hy in H2, H4. cbn in H1, H2, H3, H4.
      split; congruence.
    - assert (Hst' : status.As_grpcstatus (xaiError (mkError k m (Some e) 0 g)) = None)
        by exact Hst.
      rewrite (FromGRPCError_not_status _ Hst) in Hshape.
      rewrite (FromGRPCError_not_status _ Hst') in Hy.
      split; congruence. }
  destruct Hkg as [-> ->]. repeat split.
Qed.

Lemma FromGRPCError_twice_same_kind_witness :
  exists y : Error,
    FromGRPCError
      (Some (xaiError (mkError ErrUnavailable "try later"
                         (Some (statusError codes.Unavailable "try later")) 0
                         codes.Unavailable)))
    = Some y
    /\ Code y = ErrUnavailable
    /\ GRPCCode y = codes.Unavailable
    /\ IsRetryable y = true.
Proof.
  apply (FromGRPCError_twice_same_kind (statusError codes.Unavailable "try later")).
  reflexivity.
Defined.

(** X4.  [WrapError] on an error with no [*Error] to be found wraps it:
    the result unwraps to the error, its text is the message, a colon
    and the text of the error, and its translation has the kind and the
    transport code of the translation of the error. *)
Theorem WrapError_plain_keeps_translation :
  forall (e : error) (message : string),
    errors_As_Error e = None ->
    exists wrapped : error,
      WrapError (Some e) message = Some wrapped
      /\ Unwrap wrapped = Some e
      /\ error_Error wrapped = message +:+ ": " +:+ error_Error e
      /\ option_map Code (FromGRPCError (Some wrapped))
         = option_map Code (FromGRPCError (Some e))
      /\ option_map GRPCCode (FromGRPCError (Some wrapped))
         = option_map GRPCCode (FromGRPCError (Some e)).
Proof.
  intros e message Hno. unfold WrapError. rewrite Hno.
  eexists. split; [ reflexivity | ]. split; [ reflexivity | ]. split; [ reflexivity | ].
  set (wrapped := wrapError _ e).
  destruct (status.As_grpcstatus e) as [st | ] eqn:Hst.
  - assert (Hst' : status.As_grpcstatus wrapped = Some st) by exact Hst.
    rewrite (FromGRPCError_kind_by_code _ _ Hst), (FromGRPCError_kind_by_code _ _ Hst'),
      (FromGRPCError_GRPCCode_by_status _ _ Hst), (FromGRPCError_GRPCCode_by_status _ _ Hst').
    split; reflexivity.
  - assert (Hst' : status.As_grpcstatus wrapped = None) by exact Hst.
    rewrite (FromGRPCError_not_status _ Hst), (FromGRPCError_not_status _ Hst').
    split; reflexivity.
Qed.

Lemma WrapError_plain_keeps_translation_witness :
  exists wrapped : error,
    WrapError (Some (statusError codes.NotFound "no such response")) "get stored" = Some wrapped
    /\ Unwrap wrapped = Some (statusError codes.NotFound "no such response")
    /\ error_Error wrapped
       = "get stored" +:+ ": " +:+ error_Error (statusError codes.NotFound "no such response")
    /\ option_map Code (FromGRPCError (Some wrapped))
       = option_map Code (FromGRPCError (Some (statusError codes.NotFound "no such response")))
    /\ option_map GRPCCode (FromGRPCError (Some wrapped))
       = option_map GRPCCode
           (FromGRPCError (Some (statusError codes.NotFound "no such response"))).
Proof.
  apply (WrapError_plain_keeps_translation (statusError codes.NotFound "no such response")).
  reflexivity.
Defined.

Lemma wrapAll_xaiError (messages : list string) :
  forall x : Error,
    wrapAll messages (Some (xaiError x))
    = Some (xaiError (mkError (Code x) (prefixed messages (Message x)) (Cause x)
                        (RetryAfter x) (GRPCCode x))).
Proof.
  unfold wrapAll. induction messages as [ | m rest IH ]; intros x.
  - destruct x; reflexivity.
  - cbn [foldl prefixed]. unfold WrapError at 2. cbn [errors_As_Error].
    rewrite IH. reflexivity.
Qed.

(** X5.  Wrapping an error several times keeps, at every depth, the
    kind, the retry delay, the transport code and the cause of the first
    [*Error] its chain had; the messages pile up in front of that
    error's message, the last wrap first. *)
Theorem WrapError_repeated :
  forall (e : error) (wrapped : Error) (m : string) (rest : list string),
    firstError (chain e) = Some wrapped ->
    wrapAll (m :: rest) (Some e)
    = Some (xaiError (mkError (Code wrapped) (prefixed (m :: rest) (Message wrapped))
                        (Cause wrapped) (RetryAfter wrapped) (GRPCCode wrapped))).
Proof.
  intros e wrapped m rest Hfirst.
  unfold wrapAll. cbn [foldl]. unfold WrapError at 2.
  rewrite errors_As_Error_first, Hfirst.
  exact (wrapAll_xaiError rest _).
Qed.

Lemma WrapError_repeated_witness :
  wrapAll ["poll"; "wait"]
    (Some (xaiError (mkError ErrTimeout "deadline" None 0 codes.DeadlineExceeded)))
  = Some (xaiError (mkError ErrTimeout "wait: poll: deadline" None 0 codes.DeadlineExceeded)).
Proof.
  exact (WrapError_repeated
           (xaiError (mkError ErrTimeout "deadline" None 0 codes.DeadlineExceeded))
           _ "poll" ["wait"] eq_refl).
Defined.

Lemma Is_sentinel (x : Error) (c : ErrorCode) : Is x (sentinel c) = (Code x =? c).
Proof. reflexivity. Qed.

Lemma sentinels_codes (s : error) :
  In s sentinels -> exists c, s = sentinel c /\ 1 <= c <= 9.
Proof.
  unfold sentinels. cbn [In].
  intros H. repeat (destruct H as [<- | H]; [ eexists; split; [ reflexivity | ]; cbv; intuition discriminate | ]).
  destruct H.
Qed.

(** X6.  Matching is by kind alone: an [*Error] matches a sentinel
    exactly when it has the sentinel's kind, also when the sentinel is
    wrapped; it matches at most one of the nine sentinels, and none when
    its kind is [Unknown], for which there is no sentinel.  The
    translation of a status error of the table matches the sentinel of
    its row. *)
Theorem Is_matches_by_kind :
  forall x : Error,
    (forall c : ErrorCode, Is x (sentinel c) = true <-> Code x = c)
    /\ (forall (c : ErrorCode) (msg : string),
          Is x (wrapError msg (sentinel c)) = Is x (sentinel c))
    /\ (forall y : Error, Code y = Code x -> forall target, Is y target = Is x target)
    /\ (forall s1 s2 : error,
          In s1 sentinels -> In s2 sentinels ->
          Is x s1 = true -> Is x s2 = true -> s1 = s2)
    /\ (Code x = ErrUnknown -> forall s, In s sentinels -> Is x s = false)
    /\ Forall (fun row =>
                 forall msg y,
                   FromGRPCError (Some (statusError (fst row) msg)) = Some y ->
                   Is y (sentinel (snd row)) = true) mappingTable.
Proof.
  intros x.
  assert (Hs : forall c, Is x (sentinel c) = true <-> Code x = c).
  { intros c. rewrite Is_sentinel. apply Z.eqb_eq. }
  split; [ exact Hs | ]. split; [ reflexivity | ]. split.
  { intros y Hy target. unfold Is. rewrite Hy. reflexivity. }
  split.
  { intros s1 s2 H1 H2 M1 M2.
    destruct (sentinels_codes s1 H1) as (c1 & -> & _).
    destruct (sentinels_codes s2 H2) as (c2 & -> & _).
    apply Hs in M1. apply Hs in M2. congruence. }
  split.
  { intros Hu s Hin. destruct (sentinels_codes s Hin) as (c & -> & Hc).
    rewrite Is_sentinel, Hu. apply Z.eqb_neq. unfold ErrUnknown. lia. }
  unfold mappingTable.
  repeat (constructor; [ intros msg y [= <-]; reflexivity | ]).
  constructor.
Qed.

Lemma Is_matches_by_kind_witness :
  Is (mkError ErrAuth "test" None 0 codes.OK) ErrAuthSentinel = true
  /\ Is (mkError ErrAuth "test" None 0 codes.OK) ErrRateLimitSentinel = false.
Proof.
  destruct (Is_matches_by_kind (mkError ErrAuth "test" None 0 codes.OK)) as (Hs & _).
  split.
  - apply Hs. reflexivity.
  - destruct (Is (mkError ErrAuth "test" None 0 codes.OK) ErrRateLimitSentinel) eqn:H;
      [ | reflexivity ].
    apply Hs in H. discriminate.
Defined.

End ErrorsFurther.

(** ** Tool calls *)

Section ToolsFurther.

(** X7.  A converted tool call keeps the id, is server-side exactly for
    the six server tool kinds and client-side otherwise, unrecognised
    kinds included, never both; its status is failed or completed
    exactly when the wire says so and pending for every other wire
    status; a nil call converts to nil and nothing else does. *)
Theorem toolCallFromProto_classifies :
  toolCallFromProto None = None
  /\ forall tc : v1.ToolCall,
      exists info : ToolCallInfo,
        toolCallFromProto (Some tc) = Some info
        /\ ID info = v1.tc_Id tc
        /\ IsClientSide info = negb (IsServerSide info)
        /\ (IsServerSide info = true <->
            In (v1.tc_Type tc)
               [v1.TOOL_CALL_TYPE_WEB_SEARCH_TOOL; v1.TOOL_CALL_TYPE_X_SEARCH_TOOL;
                v1.TOOL_CALL_TYPE_CODE_EXECUTION_TOOL;
                v1.TOOL_CALL_TYPE_COLLECTIONS_SEARCH_TOOL; v1.TOOL_CALL_TYPE_MCP_TOOL;
                v1.TOOL_CALL_TYPE_ATTACHMENT_SEARCH_TOOL])
        /\ (Status info = ToolCallStatusCompleted <->
            v1.tc_Status tc = v1.TOOL_CALL_STATUS_COMPLETED)
        /\ (Status info = ToolCallStatusFailed <->
            v1.tc_Status tc = v1.TOOL_CALL_STATUS_FAILED)
        /\ (Status info = ToolCallStatusPending <->
            exists n, v1.tc_Status tc = v1.ToolCallStatus_other n)
        /\ (Function_ info = None <-> v1.tc_Function tc = None).
Proof.
  split; [ reflexivity | ]. intros [id ty st em fn].
  eexists. split; [ reflexivity | ]. cbn.
  split; [ reflexivity | ].
  split; [ destruct ty; reflexivity | ].
  split.
  { destruct ty; cbn; split; intros H; try discriminate; try reflexivity;
      try tauto; intuition discriminate. }
  split; [ destruct st; cbv; split; intros H; solve [ reflexivity | discriminate ] | ].
  split; [ destruct st; cbv; split; intros H; solve [ reflexivity | discriminate ] | ].
  split.
  { destruct st; cbv; split; intros H; try discriminate; eauto;
      destruct H as [n' H]; discriminate. }
  destruct fn; split; intros H; congruence.
Qed.

Lemma anyFunctionNamed_true (name : string) (registeredTools : list Tool) :
  anyFunctionNamed name registeredTools = true
  <-> exists description parameters strict,
      In (FunctionTool name description parameters strict) registeredTools.
Proof.
  induction registeredTools as [ | tool rest IH ]; cbn.
  - split; [ discriminate | intros (? & ? & ? & []) ].
  - destruct tool as [n d p s | | | | ids | l | a b ];
      try (rewrite IH; split;
           [ intros (d' & p' & s' & H); exists d', p', s'; right; exact H
           | intros (d' & p' & s' & [H | H]); [ discriminate | eauto ] ]).
    destruct (String.eqb_spec n name) as [-> | Hne].
    + split; [ intros _; exists d, p, s; left; reflexivity | reflexivity ].
    + rewrite IH. split.
      * intros (d' & p' & s' & H). exists d', p', s'. right. exact H.
      * intros (d' & p' & s' & [H | H]); [ congruence | eauto ].
Qed.

(** X8.  [IsClientSideTool] holds exactly when the call carries a
    function and a function tool of that very name is registered.  It
    is false for a nil call, a call without function and an empty
    registry; registering more tools never turns it false; and it reads
    neither the type nor the status of the call, so that a call the
    service ran itself counts when its name is registered. *)
Theorem IsClientSideTool_by_function_name :
  forall (call : option ToolCallInfo) (registeredTools : list Tool),
    (IsClientSideTool call registeredTools = true <->
     exists info fn description parameters strict,
       call = Some info /\ Function_ info = Some fn
       /\ In (FunctionTool (Name fn) description parameters strict) registeredTools)
    /\ IsClientSideTool None registeredTools = false
    /\ IsClientSideTool call [] = false
    /\ (forall more,
          IsClientSideTool call registeredTools = true ->
          IsClientSideTool call (registeredTools ++ more)%list = true
          /\ IsClientSideTool call (more ++ registeredTools)%list = true)
    /\ (forall id id' ty ty' st st' em em' fn,
          IsClientSideTool (Some (mkToolCallInfo id ty st em fn)) registeredTools
          = IsClientSideTool (Some (mkToolCallInfo id' ty' st' em' fn)) registeredTools).
Proof.
  intros call registeredTools.
  assert (Hiff : forall tools,
             IsClientSideTool call tools = true <->
             exists info fn description parameters strict,
               call = Some info /\ Function_ info = Some fn
               /\ In (FunctionTool (Name fn) description parameters strict) tools).
  { intros tools. unfold IsClientSideTool. destruct call as [info | ].
    - destruct (Function_ info) as [fn | ] eqn:Hfn.
      + rewrite anyFunctionNamed_true. split.
        * intros (d & p & s & H). exists info, fn, d, p, s. auto.
        * intros (info' & fn' & d & p & s & [= <-] & Hfn' & H).
          rewrite Hfn in Hfn'. injection Hfn' as <-. eauto.
      + split; [ discriminate | ].
        intros (info' & fn' & d & p & s & [= <-] & Hfn' & _). congruence.
    - split; [ discriminate | ]. intros (? & ? & ? & ? & ? & H & _). discriminate. }
  split; [ apply Hiff | ]. split; [ reflexivity | ].
  split; [ destruct call as [[? ? ? ? [fn | ]] | ]; reflexivity | ].
  split; [ | reflexivity ].
  intros more H. apply Hiff in H as (info & fn & d & p & s & Hc & Hfn & Hin).
  split; apply Hiff; exists info, fn, d, p, s; repeat split; try assumption;
    apply in_or_app; auto.
Qed.

Lemma IsClientSideTool_by_function_name_witness :
  IsClientSideTool
    (Some (mkToolCallInfo "tc_9" ToolCallTypeServer ToolCallStatusCompleted ""
             (Some (mkFunctionCall "add_numbers" "{}"))))
    [WebSearchTool; FunctionTool "add_numbers" "Add two numbers" None false] = true.
Proof.
  apply (IsClientSideTool_by_function_name _ _).
  eexists _, _, _, _, _. split; [ reflexivity | ]. split; [ reflexivity | ].
  right. left. reflexivity.
Defined.

End ToolsFurther.

(** ** Responses, chunks and streams *)

Section ChatFurther.

(** X9.  [finishReasonFromProto] returns stop, length, tool_calls or the
    empty string, the latter exactly for a wire reason the code does not
    name; both length limits give length; it never returns
    content_filter. *)
Theorem finishReasonFromProto_range :
  forall r : v1.FinishReason,
    In (finishReasonFromProto r)
       [FinishReasonStop; FinishReasonLength; FinishReasonToolCalls; ""]
    /\ finishReasonFromProto r <> FinishReasonContentFilter
    /\ (finishReasonFromProto r = "" <-> exists n, r = v1.FinishReason_other n)
    /\ (finishReasonFromProto r = FinishReasonLength <->
        r = v1.REASON_MAX_LEN \/ r = v1.REASON_MAX_CONTEXT).
Proof.
  intros r. destruct r; cbn; repeat split; try tauto; try discriminate; eauto;
    try (intros [n H]; discriminate); try (intros [H | H]; discriminate).
Qed.

Lemma pulls_app (n m : nat) (s : ChunkStream) :
  pulls (n + m) s
  = let (a, s1) := pulls n s in
    let (b, s2) := pulls m s1 in
    ((a ++ b)%list, s2).
Proof.
  revert s. induction n as [ | n IH ]; intros s.
  - cbn [Nat.add pulls]. destruct (pulls m s). reflexivity.
  - cbn [Nat.add pulls]. destruct (Next s) as [r s1]. rewrite IH.
    destruct (pulls n s1) as [a s2]. destruct (pulls m s2) as [b s3]. reflexivity.
Qed.

Lemma pulls_chunks (recv : nat -> option v1.GetChatCompletionChunk * option error)
    (rest : list v1.GetChatCompletionChunk) :
  forall k : nat,
    (forall i c, rest !! i = Some c -> recv (k + i)%nat = (Some c, None)) ->
    pulls (length rest) (mkChunkStream (mkTransport recv k) None)
    = (map (fun c => (Some (chunkFromProto (Some c)), None)) rest,
       mkChunkStream (mkTransport recv (k + length rest)) None).
Proof.
  induction rest as [ | c rest IH ]; intros k Hrecv.
  - cbn. rewrite Nat.add_0_r. reflexivity.
  - cbn [length pulls map].
    rewrite (Next_chunk (mkChunkStream (mkTransport recv k) None) (Some c) eq_refl).
    + cbn [stream polled recvs]. rewrite IH.
      * rewrite Nat.add_succ_r. reflexivity.
      * intros i c' Hi. rewrite Nat.add_succ_l, <- Nat.add_succ_r. apply Hrecv. exact Hi.
    + cbn. rewrite <- (Nat.add_0_r k) at 1. apply Hrecv. reflexivity.
Qed.

Lemma pulls_EOF (recv : nat -> option v1.GetChatCompletionChunk * option error) (n : nat) :
  forall k : nat,
    (forall i, recv (k + i)%nat = (None, Some io_EOF)) ->
    pulls n (mkChunkStream (mkTransport recv k) None)
    = (repeat (None, Some io_EOF) n, mkChunkStream (mkTransport recv (k + n)) None).
Proof.
  induction n as [ | n IH ]; intros k Hrecv.
  - cbn. rewrite Nat.add_0_r. reflexivity.
  - cbn [pulls repeat].
    rewrite (Next_EOF (mkChunkStream (mkTransport recv k) None) None eq_refl).
    + cbn [stream polled recvs]. rewrite IH.
      * rewrite Nat.add_succ_r. reflexivity.
      * intros i. rewrite Nat.add_succ_l, <- Nat.add_succ_r. apply Hrecv.
    + cbn. rewrite <- (Nat.add_0_r k) at 1. apply Hrecv.
Qed.

(** X10.  On a stream whose transport delivers the fragments of a list
    and then the end of the stream, as many pulls as there are fragments
    return their conversions in arrival order, and every pull after
    that returns [io.EOF]; no error is stored, [Err] stays nil, and the
    transport has been asked once per pull. *)
Theorem pulls_in_order_then_EOF :
  forall (frags : list v1.GetChatCompletionChunk) (more : nat),
    let (results, s) := pulls (length frags + more) (openStream (scripted frags)) in
    results
    = (map (fun c => (Some (chunkFromProto (Some c)), None)) frags
         ++ repeat (None, Some io_EOF) more)%list
    /\ err s = None
    /\ Err s = None
    /\ polled (stream s) = (length frags + more)%nat.
Proof.
  intros frags more. rewrite pulls_app. unfold openStream, scripted.
  rewrite pulls_chunks.
  - rewrite pulls_EOF.
    + repeat split.
    + intros i. cbn. rewrite lookup_ge_None_2; [ reflexivity | lia ].
  - intros i c Hi. cbn. rewrite Hi. reflexivity.
Qed.

Lemma Next_pullResult (s : ChunkStream) :
  storesTranslated s ->
  pullResult (fst (Next s)) /\ storesTranslated (snd (Next s)).
Proof.
  intros [Hs | [x Hs]].
  - unfold Next, Recv. rewrite Hs.
    destruct (recvs (stream s) (polled (stream s))) as [chunk [e | ]].
    + assert (Htr : forall e', e = e' -> e' <> io_EOF ->
                pullResult (None, option_map xaiError (FromGRPCError (Some e')))
                /\ storesTranslated
                     (mkChunkStream (mkTransport (recvs (stream s)) (S (polled (stream s))))
                        (option_map xaiError (FromGRPCError (Some e'))))).
      { intros e' _ _. destruct (FromGRPCError_shape e') as (k & m & g & ->).
        split; [ right; right | right ]; cbn; eauto. }
      destruct e; try (apply (Htr _ eq_refl); discriminate).
      cbn. split; [ right; left; reflexivity | left; reflexivity ].
    + cbn. split; [ left; eauto | left; reflexivity ].
  - rewrite (Next_stored s _ Hs). cbn. split; [ right; right | right ]; eauto.
Qed.

(** X11.  Whatever the transport does, every pull on a stream that
    [StreamChat] returned gives exactly one of a chunk without error,
    [io.EOF] without chunk, or an [*Error] of this package without
    chunk: no raw transport error reaches the caller, and what [Err]
    reports afterwards is nil or such an [*Error]. *)
Theorem pulls_return_chunk_EOF_or_Error :
  forall (t : Transport) (n : nat),
    Forall pullResult (fst (pulls n (openStream t)))
    /\ (Err (snd (pulls n (openStream t))) = None
        \/ exists x, Err (snd (pulls n (openStream t))) = Some (xaiError x)).
Proof.
  intros t n.
  assert (H : forall s, storesTranslated s ->
                        Forall pullResult (fst (pulls n s))
                        /\ storesTranslated (snd (pulls n s))).
  { induction n as [ | n IH ]; intros s Hs.
    - cbn. split; [ constructor | exact Hs ].
    - cbn [pulls]. destruct (Next_pullResult s Hs) as [Hr Hs1].
      destruct (Next s) as [r s1]. cbn [fst snd] in Hr, Hs1.
      destruct (IH s1 Hs1) as [Hrs Hs2].
      destruct (pulls n s1) as [rs s2]. cbn [fst snd] in *.
      split; [ constructor; assumption | exact Hs2 ]. }
  destruct (H (openStream t)) as [Hall Hst]; [ left; reflexivity | ].
  split; [ exact Hall | ].
  unfold Err. destruct Hst as [-> | [x ->]]; eauto.
Qed.


End ChatFurther.

(** ** Deferred completions *)

Section DeferredFurther.

Variable w : World.
Variable requestID : string.
Variables pollInterval deadline : Z.

(** Rounds of a pending poll and a full wait bring the loop to a later
    poll and instant. *)
Lemma waitLoop_skip_pending :
  neverDone w ->
  latenciesNonNegative w ->
  forall (n fuel k : nat) (now : Z),
    (forall j, (j < n)%nat -> pollReports w requestID (k + j) v1.PENDING) ->
    now + elapsed w pollInterval k n < deadline ->
    waitLoop (n + fuel) w requestID pollInterval deadline k now
    = waitLoop fuel w requestID pollInterval deadline (k + n)
        (now + elapsed w pollInterval k n).
Proof.
  intros Hnever Hlat n.
  induction n as [ | n IH ]; intros fuel k now Hpend Htime; cbn [elapsed] in *.
  - rewrite Nat.add_0_r, Z.add_0_r. reflexivity.
  - pose proof (elapsed_nonneg w pollInterval Hlat n (S k)) as Hel.
    pose proof (Hlat k) as Hk.
    cbn [Nat.add]. rewrite waitLoop_pending; [ | lia | ].
    + rewrite (selectWait_neverDone _ _ _ _ Hnever), (IH fuel (S k)).
      * f_equal; lia.
      * intros j Hj. replace (S k + j)%nat with (k + S j)%nat by lia. apply Hpend. lia.
      * lia.
    + specialize (Hpend 0%nat). rewrite Nat.add_0_r in Hpend. apply Hpend. lia.
Qed.

(** A poll that reports [DONE] ends the wait with the payload. *)
Lemma waitLoop_done (fuel k : nat) (now : Z) (resp : v1.GetDeferredCompletionResponse) :
  now < deadline ->
  pollReturns w requestID k resp ->
  v1.dr_Status resp = v1.DONE ->
  waitLoop (S fuel) w requestID pollInterval deadline k now
  = Some ((option_map chatResponseFromProto (v1.dr_Response resp), None),
          now + rpcLatency w k).
Proof.
  intros Hearly Hrpc Hst. rewrite (waitLoop_poll _ _ _ _ _ _ _ Hearly).
  cbv zeta. unfold GetDeferred. rewrite Hrpc, Hst. reflexivity.
Qed.

(** A poll that fails in the transport ends the wait with the
    translation of its error. *)
Lemma waitLoop_transport_error (fuel k : nat) (now : Z) (e : error) :
  now < deadline ->
  pollFails w requestID k e ->
  waitLoop (S fuel) w requestID pollInterval deadline k now
  = Some ((None, option_map xaiError (FromGRPCError (Some e))), now + rpcLatency w k).
Proof.
  intros Hearly Hrpc. rewrite (waitLoop_poll _ _ _ _ _ _ _ Hearly).
  cbv zeta. unfold GetDeferred. rewrite Hrpc.
  destruct (FromGRPCError_shape e) as (k' & m & g & ->). reflexivity.
Qed.

End DeferredFurther.

(** X13.  [GetDeferred] returns a response or an error, never both and
    never neither.  The response carries a chat response only when its
    status is completed and an error text exactly when its status is
    failed; a wire status the code does not name leaves the status
    empty.  The error is the translation of the transport's error and
    has it as cause. *)
Theorem GetDeferred_response_or_error :
  (forall resp : v1.GetDeferredCompletionResponse,
      exists d : DeferredResponse,
        GetDeferred (inl resp) = (Some d, None)
        /\ (is_Some (def_Response d) ->
            def_Status d = DeferredStatusCompleted /\ is_Some (v1.dr_Response resp))
        /\ (def_Error d <> "" <-> def_Status d = DeferredStatusFailed)
        /\ (def_Status d = DeferredStatusFailed <-> v1.dr_Status resp = v1.EXPIRED)
        /\ (def_Status d = DeferredStatusCompleted <-> v1.dr_Status resp = v1.DONE)
        /\ (def_Status d = DeferredStatusPending <-> v1.dr_Status resp = v1.PENDING)
        /\ (def_Status d = "" <-> exists n, v1.dr_Status resp = v1.DeferredStatus_other n))
  /\ (forall e : error,
        exists x : Error,
          GetDeferred (inr e) = (None, Some (xaiError x))
          /\ FromGRPCError (Some e) = Some x
          /\ Cause x = Some e).
Proof.
  split.
  - intros [st payload]. eexists. split; [ reflexivity | ].
    destruct st, payload as [p | ]; cbn; repeat split; intros;
      repeat match goal with
             | H : is_Some None |- _ => destruct H as [? H]; discriminate
             | H : ex _ |- _ => destruct H; discriminate
             end;
      try discriminate; try congruence; eauto.
  - intros e. destruct (FromGRPCError_shape e) as (k & m & g & Hx).
    eexists. unfold GetDeferred. rewrite Hx. repeat split.
Qed.

(** X14.  With a timeout that is not positive [WaitForDeferred] returns
    its timeout error at once and does not poll: the result is the same
    in every world and with no poll allowed. *)
Theorem WaitForDeferred_no_time_no_poll :
  forall (w : World) (requestID : string) (pollInterval timeout start : Z) (fuel : nat),
    timeout <= 0 ->
    WaitForDeferred fuel w requestID pollInterval timeout start
    = Some ((None, Some errWaitTimeout), start)
    /\ WaitForDeferred 0 w requestID pollInterval timeout start
       = Some ((None, Some errWaitTimeout), start).
Proof.
  intros w requestID pollInterval timeout start fuel Hle.
  unfold WaitForDeferred. split; apply waitLoop_expired; lia.
Qed.

Lemma WaitForDeferred_no_time_no_poll_witness :
  WaitForDeferred 7 expiresAtThirdPoll "req_1" 1 0 100
  = Some ((None, Some errWaitTimeout), 100)
  /\ WaitForDeferred 0 expiresAtThirdPoll "req_1" 1 0 100
     = Some ((None, Some errWaitTimeout), 100).
Proof.
  apply (WaitForDeferred_no_time_no_poll expiresAtThirdPoll "req_1" 1 0 100 7). lia.
Defined.

(** X15.  When the polls report [PENDING] [n] times and then [DONE],
    that last poll starting before the deadline, [WaitForDeferred]
    returns the converted payload and no error when that poll returns,
    after [n + 1] polls.  When the service sends [DONE] without a
    payload, it returns a nil response and a nil error. *)
Theorem WaitForDeferred_completes :
  forall (w : World) (requestID : string) (pollInterval timeout start : Z)
         (fuel n : nat) (resp : v1.GetDeferredCompletionResponse),
    neverDone w ->
    latenciesNonNegative w ->
    (forall j, (j < n)%nat -> pollReports w requestID j v1.PENDING) ->
    pollReturns w requestID n resp ->
    v1.dr_Status resp = v1.DONE ->
    elapsed w pollInterval 0 n < timeout ->
    (n < fuel)%nat ->
    WaitForDeferred fuel w requestID pollInterval timeout start
    = Some ((option_map chatResponseFromProto (v1.dr_Response resp), None),
            start + elapsed w pollInterval 0 n + rpcLatency w n)
    /\ (v1.dr_Response resp = None ->
        fst <$> WaitForDeferred fuel w requestID pollInterval timeout start
        = Some (None, None)).
Proof.
  intros w requestID pollInterval timeout start fuel n resp
         Hnever Hlat Hpend Hret Hdone Htime Hfuel.
  assert (Hrun : WaitForDeferred fuel w requestID pollInterval timeout start
                 = Some ((option_map chatResponseFromProto (v1.dr_Response resp), None),
                         start + elapsed w pollInterval 0 n + rpcLatency w n)).
  { unfold WaitForDeferred.
    replace fuel with (n + S (fuel - n - 1))%nat by lia.
    rewrite (waitLoop_skip_pending w requestID pollInterval (start + timeout) Hnever Hlat
               n _ 0%nat start Hpend ltac:(lia)).
    cbn [Nat.add]. apply waitLoop_done; [ lia | exact Hret | exact Hdone ]. }
  split; [ exact Hrun | ]. intros Hnil. rewrite Hrun, Hnil. reflexivity.
Qed.

(** Pending for three polls, then done, with a poll interval of 1 and
    a timeout of 10. *)
Lemma WaitForDeferred_completes_witness :
  let payload := v1.mkResponse "resp_1" [] None "grok-4" "fp" None
                   [v1.mkOutput v1.REASON_STOP (Some (v1.mkDelta "Paris" "" []))] in
  WaitForDeferred 4 (doneAtFourthPoll payload) "req_1" 1 10 0
  = Some ((Some (chatResponseFromProto payload), None), 3).
Proof.
  intros payload.
  refine (proj1 (WaitForDeferred_completes (doneAtFourthPoll payload) "req_1" 1 10 0 4 3
                   (v1.mkDeferred v1.DONE (Some payload)) _ _ _ _ _ _ _)).
  - reflexivity.
  - intros k. cbn. lia.
  - intros j Hj. unfold pollReports, doneAtFourthPoll. cbn [rpcResult].
    rewrite (proj2 (Nat.ltb_lt j 3) Hj). eexists. split; reflexivity.
  - reflexivity.
  - reflexivity.
  - cbn. lia.
  - lia.
Defined.

(** X16.  When a poll fails in the transport, after any number of
    pending polls and before the deadline, [WaitForDeferred] stops
    polling and returns the translation of the transport's error, with
    that error as cause, and no response. *)
Theorem WaitForDeferred_transport_error :
  forall (w : World) (requestID : string) (pollInterval timeout start : Z)
         (fuel n : nat) (e : error),
    neverDone w ->
    latenciesNonNegative w ->
    (forall j, (j < n)%nat -> pollReports w requestID j v1.PENDING) ->
    pollFails w requestID n e ->
    elapsed w pollInterval 0 n < timeout ->
    (n < fuel)%nat ->
    exists x : Error,
      WaitForDeferred fuel w requestID pollInterval timeout start
      = Some ((None, Some (xaiError x)),
              start + elapsed w pollInterval 0 n + rpcLatency w n)
      /\ FromGRPCError (Some e) = Some x
      /\ Cause x = Some e.
Proof.
  intros w requestID pollInterval timeout start fuel n e
         Hnever Hlat Hpend Hfail Htime Hfuel.
  destruct (FromGRPCError_shape e) as (k & m & g & Hx).
  eexists. split; [ | split; [ exact Hx | reflexivity ] ].
  unfold WaitForDeferred.
  replace fuel with (n + S (fuel - n - 1))%nat by lia.
  rewrite (waitLoop_skip_pending w requestID pollInterval (start + timeout) Hnever Hlat
             n _ 0%nat start Hpend ltac:(lia)).
  cbn [Nat.add].
  rewrite (waitLoop_transport_error w requestID pollInterval (start + timeout) _ n
             (start + elapsed w pollInterval 0 n) e ltac:(lia) Hfail).
  rewrite Hx. reflexivity.
Qed.

(** A pending poll, a wait of 3, then a poll that fails with status
    [Internal]: the error has the kind of a server error and the
    transport's error as cause. *)
Lemma WaitForDeferred_transport_error_witness :
  exists x : Error,
    WaitForDeferred 2 failsAtSecondPoll "req_1" 3 60 0 = Some ((None, Some (xaiError x)), 7)
    /\ FromGRPCError (Some (statusError codes.Internal "backend crashed")) = Some x
    /\ Cause x = Some (statusError codes.Internal "backend crashed").
Proof.
  refine (WaitForDeferred_transport_error failsAtSecondPoll "req_1" 3 60 0 2 1
            (statusError codes.Internal "backend crashed") _ _ _ _ _ _).
  - reflexivity.
  - intros k. cbn. lia.
  - intros j Hj. assert (j = 0%nat) as -> by lia. eexists. split; reflexivity.
  - reflexivity.
  - cbn. lia.
  - lia.
Defined.

(** X17.  With a positive poll interval and polls that take no negative
    time, [WaitForDeferred] returns, whatever the service answers and
    whenever the caller cancels, and it makes at most one poll per time
    unit of the timeout. *)
Theorem WaitForDeferred_returns_within_timeout_polls :
  forall (w : World) (requestID : string) (pollInterval timeout start : Z) (fuel : nat),
    0 < pollInterval ->
    latenciesNonNegative w ->
    timeout <= Z.of_nat fuel ->
    exists res, WaitForDeferred fuel w requestID pollInterval timeout start = Some res.
Proof.
  intros w requestID pollInterval timeout start fuel Hpos Hlat Hfuel.
  unfold WaitForDeferred. apply waitLoop_returns; [ exact Hpos | exact Hlat | lia ].
Qed.

Lemma WaitForDeferred_returns_within_timeout_polls_witness :
  exists res, WaitForDeferred 60 failsAtSecondPoll "req_1" 3 60 0 = Some res.
Proof.
  apply (WaitForDeferred_returns_within_timeout_polls failsAtSecondPoll "req_1" 3 60 0 60).
  - lia.
  - intros k. cbn. lia.
  - lia.
Defined.

(** ** The request builder, further *)

Section BuilderFurther.

Lemma calls_cons (c : Call) (cs : list Call) (r : ChatRequest) :
  calls (c :: cs) r = calls cs (apply c r).
Proof. reflexivity. Qed.

Lemma apply_messages (c : Call) (r : ChatRequest) :
  messages (apply c r) = (messages r ++ messageOf c)%list.
Proof. destruct r, c; cbn; rewrite ?app_nil_r; reflexivity. Qed.

Lemma calls_messages (cs : list Call) :
  forall r : ChatRequest,
    messages (calls cs r) = (messages r ++ flat_map messageOf cs)%list.
Proof.
  induction cs as [ | c cs IH ]; intros r.
  - cbn. rewrite app_nil_r. reflexivity.
  - rewrite calls_cons, IH, apply_messages. cbn [flat_map].
    rewrite <- app_assoc. reflexivity.
Qed.

Lemma messageOf_message_calls (cs : list Call) :
  flat_map messageOf (List.filter (fun c => (slot c =? 0)%nat) cs) = flat_map messageOf cs.
Proof.
  induction cs as [ | c cs IH ]; [ reflexivity | ].
  cbn [List.filter flat_map]. destruct c; cbn; rewrite IH; reflexivity.
Qed.

Lemma messageOf_count (cs : list Call) :
  length (flat_map messageOf cs) = length (List.filter (fun c => (slot c =? 0)%nat) cs).
Proof.
  induction cs as [ | c cs IH ]; [ reflexivity | ].
  cbn [List.filter flat_map]. rewrite length_app.
  destruct c; cbn [slot Nat.eqb messageOf length Nat.add]; rewrite IH; reflexivity.
Qed.

(** X18.  The conversation of the built request is the builder's
    messages followed by one message per message call, in call order;
    the other calls add, drop and reorder nothing, wherever they stand
    in the chain. *)
Theorem Build_messages_in_call_order :
  forall (cs : list Call) (r : ChatRequest) (defaultModel : string),
    v1.Messages (fst (Build defaultModel (calls cs r)))
    = (messages r ++ flat_map messageOf cs)%list
    /\ v1.Messages (fst (Build defaultModel (calls cs r)))
       = v1.Messages
           (fst (Build defaultModel
                   (calls (List.filter (fun c => (slot c =? 0)%nat) cs) r)))
    /\ length (v1.Messages (fst (Build defaultModel (calls cs r))))
       = (length (messages r) + length (List.filter (fun c => (slot c =? 0)%nat) cs))%nat.
Proof.
  intros cs r defaultModel. rewrite !Build_unfold. cbn [fst v1.Messages].
  rewrite !calls_messages, messageOf_message_calls, length_app, messageOf_count.
  repeat split.
Qed.

Lemma messageOf_wellFormed (c : Call) : Forall wellFormedMessage (messageOf c).
Proof.
  destruct c; cbn; repeat constructor; cbn;
    try (intros H; discriminate); try (intros [? H]; discriminate);
    try reflexivity; eauto.
Qed.

(** X19.  Every message the builder's methods append is well formed: a
    tool result carries the id of its call, no message of another role
    carries one, and the content starts with a text part.  A builder
    that starts empty, or with well-formed messages, holds and builds
    only such messages. *)
Theorem builder_messages_well_formed :
  forall (cs : list Call) (r : ChatRequest) (defaultModel : string),
    Forall wellFormedMessage (messages r) ->
    Forall wellFormedMessage (v1.Messages (fst (Build defaultModel (calls cs r)))).
Proof.
  intros cs r defaultModel Hr. rewrite Build_unfold. cbn [fst v1.Messages].
  rewrite calls_messages. apply Forall_app. split; [ exact Hr | ].
  induction cs as [ | c cs IH ]; [ constructor | ].
  cbn [flat_map]. apply Forall_app. split; [ apply messageOf_wellFormed | exact IH ].
Qed.

Lemma builder_messages_well_formed_witness :
  Forall wellFormedMessage
    (v1.Messages
       (fst (Build "grok-3"
               (calls [SystemMessage "Be concise."; UserWithImage "What is this?" "https://x/i.png";
                       WithSeed 3; ToolResult "tc_1" "5"] NewChatRequest)))).
Proof.
  apply builder_messages_well_formed. constructor.
Defined.

Lemma apply_storeMessages (c : Call) (r : ChatRequest) :
  storeMessages (apply c r) = match c with
                              | WithStoreMessages store => store
                              | _ => storeMessages r
                              end.
Proof. destruct r, c; reflexivity. Qed.

Lemma calls_without_WithStoreMessages (cs : list Call) :
  forall r : ChatRequest,
    (forall b, ~ In (WithStoreMessages b) cs) ->
    storeMessages (calls cs r) = storeMessages r.
Proof.
  induction cs as [ | c cs IH ]; intros r Hno; [ reflexivity | ].
  rewrite calls_cons, IH.
  - rewrite apply_storeMessages. destruct c; try reflexivity.
    exfalso. apply (Hno store). left. reflexivity.
  - intros b Hin. apply (Hno b). right. exact Hin.
Qed.

Lemma apply_previousResponseID (c : Call) (r : ChatRequest) :
  previousResponseID (apply c r) = match c with
                                   | WithPreviousResponseId id => id
                                   | _ => previousResponseID r
                                   end.
Proof. destruct r, c; reflexivity. Qed.

(** X20.  [store_messages] is not inherited: a request built from a
    fresh builder on which [WithStoreMessages] was not called has it
    false, also when the chain names a previous response id; otherwise
    the last [WithStoreMessages] decides.  The previous response id is
    sent exactly when the builder's is not the empty string. *)
Theorem Build_store_messages_not_sticky :
  forall (defaultModel : string),
    (forall cs : list Call,
        (forall b, ~ In (WithStoreMessages b) cs) ->
        v1.StoreMessages (fst (Build defaultModel (calls cs NewChatRequest))) = false)
    /\ (forall (cs cs' : list Call) (r : ChatRequest) (b : bool),
          (forall b', ~ In (WithStoreMessages b') cs') ->
          v1.StoreMessages
            (fst (Build defaultModel (calls (cs ++ WithStoreMessages b :: cs')%list r))) = b)
    /\ (forall r : ChatRequest,
          v1.PreviousResponseId (fst (Build defaultModel r)) = None
          <-> previousResponseID r = "")
    /\ (forall (r : ChatRequest) (id : string),
          v1.PreviousResponseId (fst (Build defaultModel r)) = Some id
          <-> previousResponseID r = id /\ id <> "").
Proof.
  intros defaultModel. split; [ | split; [ | split ] ].
  - intros cs Hno. rewrite Build_unfold. cbn [fst v1.StoreMessages].
    rewrite (calls_without_WithStoreMessages cs _ Hno). reflexivity.
  - intros cs cs' r b Hno. rewrite Build_unfold. cbn [fst v1.StoreMessages].
    rewrite calls_app, calls_cons, (calls_without_WithStoreMessages cs' _ Hno),
      apply_storeMessages. reflexivity.
  - intros r. rewrite Build_unfold. cbn [fst v1.PreviousResponseId].
    destruct (String.eqb_spec (previousResponseID r) ""); split; congruence.
  - intros r id. rewrite Build_unfold. cbn [fst v1.PreviousResponseId].
    destruct (String.eqb_spec (previousResponseID r) ""); split;
      [ discriminate | intros [? ?]; congruence
      | intros [= <-]; auto | intros [-> _]; reflexivity ].
Qed.

(** Turn 2 of a chained conversation: the previous response id is set
    and [WithStoreMessages] is not called. *)
Lemma Build_store_messages_not_sticky_witness :
  v1.StoreMessages
    (fst (Build "grok-3"
            (calls [WithPreviousResponseId "resp_1"; UserMessage "What is my name?";
                    WithMaxTokens 50] NewChatRequest))) = false.
Proof.
  apply (proj1 (Build_store_messages_not_sticky "grok-3")).
  intros b [H | [H | [H | []]]]; discriminate.
Defined.

Lemma apply_logprobs (c : Call) (r : ChatRequest) :
  logprobs (apply c r) = match c with
                         | WithLogprobs _ => true
                         | _ => logprobs r
                         end.
Proof. destruct r, c; reflexivity. Qed.

Lemma calls_logprobs_stay (cs : list Call) :
  forall r : ChatRequest, logprobs r = true -> logprobs (calls cs r) = true.
Proof.
  induction cs as [ | c cs IH ]; intros r Hr; [ exact Hr | ].
  rewrite calls_cons. apply IH. rewrite apply_logprobs. destruct c; auto.
Qed.

Lemma calls_without_WithLogprobs (cs : list Call) :
  forall r : ChatRequest,
    (forall n, ~ In (WithLogprobs n) cs) ->
    logprobs (calls cs r) = logprobs r.
Proof.
  induction cs as [ | c cs IH ]; intros r Hno; [ reflexivity | ].
  rewrite calls_cons, IH.
  - rewrite apply_logprobs. destruct c; try reflexivity.
    exfalso. eapply Hno. left. reflexivity.
  - intros n Hin. apply (Hno n). right. exact Hin.
Qed.

(** X21.  Log probabilities cannot be switched off again: once
    [WithLogprobs] has been called, every request built later asks for
    them, whatever calls follow; and a request from a fresh builder asks
    for them only if [WithLogprobs] was called. *)
Theorem Build_logprobs_never_unset :
  forall (defaultModel : string) (cs : list Call),
    (forall (r : ChatRequest) (n : Z),
        In (WithLogprobs n) cs ->
        v1.Logprobs (fst (Build defaultModel (calls cs r))) = true)
    /\ ((forall n, ~ In (WithLogprobs n) cs) ->
        v1.Logprobs (fst (Build defaultModel (calls cs NewChatRequest))) = false).
Proof.
  intros defaultModel cs. split.
  - intros r n Hin. rewrite Build_unfold. cbn [fst v1.Logprobs].
    apply in_split in Hin as (before & after & ->).
    rewrite calls_app, calls_cons. apply calls_logprobs_stay.
    rewrite apply_logprobs. reflexivity.
  - intros Hno. rewrite Build_unfold. cbn [fst v1.Logprobs].
    rewrite (calls_without_WithLogprobs cs _ Hno). reflexivity.
Qed.

Lemma Build_logprobs_never_unset_witness :
  v1.Logprobs
    (fst (Build "grok-3"
            (calls [WithLogprobs 5; WithTemperature (S754_zero false); WithSeed 1]
               NewChatRequest))) = true.
Proof.
  apply (proj1 (Build_logprobs_never_unset "grok-3" _) NewChatRequest 5).
  left. reflexivity.
Defined.

Lemma apply_tools (c : Call) (r : ChatRequest) :
  tools (apply c r) = (tools r ++ toolsOf c)%list.
Proof. destruct r, c; cbn; rewrite ?app_nil_r; reflexivity. Qed.

Lemma calls_tools (cs : list Call) :
  forall r : ChatRequest, tools (calls cs r) = (tools r ++ flat_map toolsOf cs)%list.
Proof.
  induction cs as [ | c cs IH ]; intros r.
  - cbn. rewrite app_nil_r. reflexivity.
  - rewrite calls_cons, IH, apply_tools. cbn [flat_map].
    rewrite <- app_assoc. reflexivity.
Qed.

Lemma AddTools_as_AddTool (ts : list Tool) :
  forall r : ChatRequest, calls (map AddTool ts) r = apply (AddTools ts) r.
Proof.
  induction ts as [ | t ts IH ]; intros r.
  - destruct r. cbn. rewrite app_nil_r. reflexivity.
  - cbn [map]. rewrite calls_cons, IH. destruct r. cbn.
    rewrite <- app_assoc. reflexivity.
Qed.

(** X22.  The tools of the built request are the wire forms of the
    registered tools, one for one and in registration order; and
    [AddTools] with a list is the same as [AddTool] with each of its
    elements in turn, an empty list changing nothing. *)
Theorem Build_tools_in_registration_order :
  forall (cs : list Call) (r : ChatRequest) (defaultModel : string) (ts : list Tool),
    v1.Tools (fst (Build defaultModel (calls cs r)))
    = map Tool_toProto (tools r ++ flat_map toolsOf cs)%list
    /\ length (v1.Tools (fst (Build defaultModel (calls cs r))))
       = (length (tools r) + length (flat_map toolsOf cs))%nat
    /\ apply (AddTools ts) r = calls (map AddTool ts) r
    /\ apply (AddTools []) r = r.
Proof.
  intros cs r defaultModel ts. rewrite Build_unfold. cbn [fst v1.Tools].
  rewrite calls_tools, length_map, length_app.
  split; [ reflexivity | ]. split; [ reflexivity | ].
  split; [ symmetry; apply AddTools_as_AddTool | ].
  rewrite <- (AddTools_as_AddTool [] r). reflexivity.
Qed.



End BuilderFurther.

(** ** Catalog entries, further *)

Section ModelsFurther.




End ModelsFurther.

(** ** Secrets, configuration and credentials *)

Section SecretsFurther.

Lemma substring_0_0 (s : string) : substring 0 0 s = "".
Proof. destruct s; reflexivity. Qed.

Lemma substring_prefix (p r : string) :
  substring 0 (String.length p) (p +:+ r) = p.
Proof.
  induction p as [ | a p IH ]; simpl.
  - apply substring_0_0.
  - f_equal. exact IH.
Qed.

Lemma substring_skip (p r : string) (m : nat) :
  substring (String.length p) m (p +:+ r) = substring 0 m r.
Proof. induction p as [ | a p IH ]; simpl; [ reflexivity | exact IH ]. Qed.

Lemma substring_all (s : string) : substring 0 (String.length s) s = s.
Proof. induction s as [ | a s IH ]; simpl; [ reflexivity | f_equal; exact IH ]. Qed.

Lemma length_substring (s : string) :
  forall n m : nat,
    (n + m <= String.length s)%nat -> String.length (substring n m s) = m.
Proof.
  induction s as [ | a s IH ]; intros n m H; cbn in H.
  - assert (n = 0%nat /\ m = 0%nat) as [-> ->] by lia. reflexivity.
  - destruct n as [ | n ]; cbn.
    + destruct m as [ | m ]; [ reflexivity | ]. cbn. rewrite (IH 0%nat m); lia.
    + apply IH. lia.
Qed.

Lemma length_app_string (a b : string) :
  String.length (a +:+ b) = (String.length a + String.length b)%nat.
Proof. induction a as [ | c a IH ]; simpl; [ reflexivity | f_equal; exact IH ]. Qed.

(** X25.  [Redacted] shows the first four and the last four bytes of a
    secret of twelve bytes or more, with four asterisks for all that
    lies between, whatever it is and however long; of a shorter secret,
    and of a closed one, it shows nothing.  The result has four or
    twelve bytes. *)
Theorem Redacted_shows_only_the_ends :
  (forall s : SecureString,
      ((SecureString_Len s < 12)%nat -> SecureString_Redacted s = "****")
      /\ ((12 <= SecureString_Len s)%nat ->
          String.length (SecureString_Redacted s) = 12%nat)
      /\ (closed s = true -> SecureString_Redacted s = "****"))
  /\ (forall head middle tail : string,
        String.length head = 4%nat ->
        String.length tail = 4%nat ->
        (4 <= String.length middle)%nat ->
        SecureString_Redacted (NewSecureString (head +:+ middle +:+ tail))
        = head +:+ "****" +:+ tail).
Proof.
  split.
  - intros s. unfold SecureString_Redacted. split; [ | split ].
    + intros H. destruct (Nat.ltb_spec (SecureString_Len s) 12); [ reflexivity | lia ].
    + intros H. destruct (Nat.ltb_spec (SecureString_Len s) 12); [ lia | ].
      unfold SecureString_Len in *. destruct (closed s); [ cbn in H; lia | ].
      rewrite !length_app_string, !length_substring by lia. reflexivity.
    + intros H. unfold SecureString_Len. rewrite H. reflexivity.
  - intros head middle tail Hh Ht Hm.
    unfold SecureString_Redacted, SecureString_Len, NewSecureString. cbn [closed backing].
    rewrite !length_app_string, Hh, Ht.
    destruct (Nat.ltb_spec (4 + (String.length middle + 4)) 12); [ lia | ].
    rewrite <- Hh at 1. rewrite substring_prefix.
    replace (4 + (String.length middle + 4) - 4)%nat
      with (String.length (head +:+ middle))%nat
      by (rewrite length_app_string; lia).
    assert (Hassoc : head +:+ middle +:+ tail = (head +:+ middle) +:+ tail).
    { clear. induction head as [ | a head IH ]; [ reflexivity | ].
      change (String a (head +:+ middle +:+ tail) = String a ((head +:+ middle) +:+ tail)).
      f_equal. exact IH. }
    rewrite Hassoc, substring_skip, <- Ht, substring_all. reflexivity.
Qed.

(** The key of the package's own test. *)
Lemma Redacted_shows_only_the_ends_witness :
  SecureString_Redacted (NewSecureString ("sk_t" +:+ "est_1234567890ab" +:+ "cdef"))
  = "sk_t" +:+ "****" +:+ "cdef".
Proof.
  apply (proj2 Redacted_shows_only_the_ends "sk_t" "est_1234567890ab" "cdef").
  - reflexivity.
  - reflexivity.
  - cbn. lia.
Defined.

Lemma zeroed_length (v : string) : String.length (zeroed v) = String.length v.
Proof. induction v as [ | a v IH ]; simpl; [ reflexivity | f_equal; exact IH ]. Qed.

Lemma zeroed_get (v : string) :
  forall (n : nat) (a : ascii), String.get n (zeroed v) = Some a -> a = zeroByte.
Proof.
  induction v as [ | c v IH ]; intros n a; cbn.
  - discriminate.
  - destruct n as [ | n ]; [ intros [= <-]; reflexivity | apply IH ].
Qed.

(** X26.  A secure string gives back the value it was made from and
    its length, and is zero exactly when that value is empty.  After
    [Close] the value is the empty string, the length 0, the string is
    zero and redacts to four asterisks; every byte of the buffer that
    held the secret is zero; and a second [Close] changes nothing. *)
Theorem SecureString_Close_clears :
  forall v : string,
    let s := NewSecureString v in
    let s' := SecureString_Close s in
    SecureString_Value s = v
    /\ SecureString_Len s = String.length v
    /\ (SecureString_IsZero (Some s) = true <-> v = "")
    /\ SecureString_Value s' = ""
    /\ SecureString_Len s' = 0%nat
    /\ SecureString_IsZero (Some s') = true
    /\ SecureString_Redacted s' = "****"
    /\ String.length (backing s') = String.length v
    /\ (forall n a, String.get n (backing s') = Some a -> a = zeroByte)
    /\ SecureString_Close s' = s'
    /\ SecureString_IsZero None = true.
Proof.
  intros v s s'. subst s s'. cbn.
  repeat split; try reflexivity.
  - destruct v; [ reflexivity | discriminate ].
  - intros ->. reflexivity.
  - apply zeroed_length.
  - apply zeroed_get.
Qed.

(** X27.  [validate] fails exactly when the API key is nil, empty or
    closed, with an error of kind [Auth], and then leaves the
    configuration as it was.  Otherwise it fills in the default for the
    endpoint, the timeout, the model and the two keepalive durations
    where the field is zero and keeps every value that was set; no such
    field is zero afterwards, so that validating again changes nothing;
    and keepalive stays disabled exactly for a negative keepalive
    time. *)
Theorem Config_validate_defaults :
  forall c : Config,
    (SecureString_IsZero (APIKey c) = true ->
     Config_validate c = (Some errAPIKeyRequired, c)
     /\ kindOf (Some errAPIKeyRequired) = Some ErrAuth)
    /\ (SecureString_IsZero (APIKey c) = false ->
        exists c' : Config,
          Config_validate c = (None, c')
          /\ Config_validate c' = (None, c')
          /\ APIKey c' = APIKey c
          /\ TLSConfig c' = TLSConfig c
          /\ KeepalivePermitWithoutStream c' = KeepalivePermitWithoutStream c
          /\ Endpoint c' = (if String.eqb (Endpoint c) "" then "api.x.ai:443" else Endpoint c)
          /\ Timeout c' = (if Timeout c =? 0 then 120000000000 else Timeout c)
          /\ cfg_DefaultModel c'
             = (if String.eqb (cfg_DefaultModel c) "" then "grok-4-1-fast-reasoning"
                else cfg_DefaultModel c)
          /\ KeepaliveTime c' = (if KeepaliveTime c =? 0 then 30000000000 else KeepaliveTime c)
          /\ KeepaliveTimeout c'
             = (if KeepaliveTimeout c =? 0 then 10000000000 else KeepaliveTimeout c)
          /\ Endpoint c' <> "" /\ Timeout c' <> 0 /\ cfg_DefaultModel c' <> ""
          /\ KeepaliveTime c' <> 0 /\ KeepaliveTimeout c' <> 0
          /\ (keepaliveParams c' = None <-> KeepaliveTime c < 0)).
Proof.
  intros c. split.
  - intros Hz. unfold Config_validate. rewrite Hz. split; reflexivity.
  - intros Hz. unfold Config_validate. rewrite Hz. eexists. split; [ reflexivity | ].
    cbn [APIKey Endpoint Timeout cfg_DefaultModel KeepaliveTime KeepaliveTimeout
         TLSConfig KeepalivePermitWithoutStream].
    rewrite Hz. unfold keepaliveParams.
    cbn [APIKey Endpoint Timeout cfg_DefaultModel KeepaliveTime KeepaliveTimeout
         TLSConfig KeepalivePermitWithoutStream].
    destruct (String.eqb_spec (Endpoint c) ""), (Z.eqb_spec (Timeout c) 0),
      (String.eqb_spec (cfg_DefaultModel c) ""), (Z.eqb_spec (KeepaliveTime c) 0),
      (Z.eqb_spec (KeepaliveTimeout c) 0);
      cbn;
      repeat match goal with
             | |- context [String.eqb ?a ""] =>
                 destruct (String.eqb_spec a ""); [ congruence | ]
             | |- context [?a =? 0] => destruct (Z.eqb_spec a 0); [ congruence | ]
             end;
      repeat split; try reflexivity; try discriminate; try assumption;
      try (destruct (Z.leb_spec 0 (KeepaliveTime c)); intros; try discriminate; try lia;
           reflexivity);
      try (intros; lia).
Qed.

Lemma Config_validate_defaults_witness :
  exists c' : Config,
    Config_validate (mkConfig "" (Some (NewSecureString "xai-key")) 0 "" None (-1) 0 None)
    = (None, c')
    /\ c' = mkConfig "api.x.ai:443" (Some (NewSecureString "xai-key")) 120000000000
              "grok-4-1-fast-reasoning" None (-1) 10000000000 None
    /\ keepaliveParams c' = None.
Proof.
  destruct (proj2 (Config_validate_defaults
                     (mkConfig "" (Some (NewSecureString "xai-key")) 0 "" None (-1) 0 None))
              eq_refl)
    as (c' & Hv & _ & _ & _ & _ & _ & _ & _ & _ & _ & _ & _ & _ & _ & _ & Hk).
  exists c'. split; [ exact Hv | ].
  injection Hv as <-. split; reflexivity.
Defined.

(** X28.  The authorization header is produced exactly when the key is
    neither nil, empty nor closed; it then is the one entry of the
    metadata and reads [Bearer] followed by the key.  A closed key is
    never sent: the call fails with an error of kind [Auth].  A
    configuration that [validate] accepted yields the header. *)
Theorem GetRequestMetadata_bearer :
  forall apiKey : option SecureString,
    (SecureString_IsZero apiKey = true ->
     GetRequestMetadata apiKey = (None, Some errAPIKeyNotSet)
     /\ kindOf (Some errAPIKeyNotSet) = Some ErrAuth
     /\ Is (mkError ErrAuth "" None 0 codes.OK) errAPIKeyNotSet = true)
    /\ (SecureString_IsZero apiKey = false ->
        exists (key : SecureString) (md : gmap string string),
          apiKey = Some key
          /\ GetRequestMetadata apiKey = (Some md, None)
          /\ md !! "authorization" = Some ("Bearer " +:+ SecureString_Value key)
          /\ size md = 1%nat)
    /\ (forall key : SecureString,
          GetRequestMetadata (Some (SecureString_Close key)) = (None, Some errAPIKeyNotSet))
    /\ (forall c c' : Config,
          Config_validate c = (None, c') ->
          exists md, GetRequestMetadata (APIKey c') = (Some md, None)).
Proof.
  intros apiKey. split; [ | split; [ | split ] ].
  - intros Hz. split; [ | split; reflexivity ].
    unfold GetRequestMetadata. destruct apiKey as [key | ]; [ | reflexivity ].
    rewrite Hz. reflexivity.
  - intros Hz. destruct apiKey as [key | ]; [ | discriminate ].
    exists key. eexists. split; [ reflexivity | ].
    unfold GetRequestMetadata. rewrite Hz. split; [ reflexivity | ].
    split; [ apply lookup_singleton_eq | apply map_size_singleton ].
  - intros key. unfold GetRequestMetadata, SecureString_Close, SecureString_IsZero,
      SecureString_Len.
    destruct (closed key) eqn:Hc; [ rewrite Hc | ]; reflexivity.
  - intros c c' Hv. unfold Config_validate in Hv.
    destruct (SecureString_IsZero (APIKey c)) eqn:Hz; [ discriminate | ].
    injection Hv as <-. cbn [APIKey]. unfold GetRequestMetadata.
    destruct (APIKey c) as [key | ]; [ | discriminate ].
    rewrite Hz. eauto.
Qed.

Lemma GetRequestMetadata_bearer_witness :
  exists (key : SecureString) (md : gmap string string),
    Some (NewSecureString "xai-key") = Some key
    /\ GetRequestMetadata (Some (NewSecureString "xai-key")) = (Some md, None)
    /\ md !! "authorization" = Some ("Bearer " +:+ SecureString_Value key)
    /\ size md = 1%nat.
Proof.
  apply (GetRequestMetadata_bearer (Some (NewSecureString "xai-key"))). reflexivity.
Defined.

Lemma anyACL_In (acl : string) (acls : list string) :
  anyACL acl acls = true <-> In acl acls.
Proof.
  induction acls as [ | a acls IH ]; cbn; [ split; [ discriminate | tauto ] | ].
  destruct (String.eqb_spec a acl) as [-> | Hne].
  - split; auto.
  - rewrite IH. split; [ auto | intros [H | H]; [ contradiction | exact H ] ].
Qed.

(** X29.  The status of an API key is disabled when the wire says
    disabled, else blocked when the key is blocked, else team-blocked
    when its team is, else active: the key is active exactly when none
    of the three flags is set.  The status always has a name, and
    [HasACL] holds exactly for the permissions the wire lists. *)
Theorem GetAPIKeyInfo_status :
  forall resp : v1_ApiKey,
    exists info : APIKeyInfo,
      GetAPIKeyInfo (inl resp) = (Some info, None)
      /\ (IsActive info = true <->
          ak_Disabled resp = false /\ ak_ApiKeyBlocked resp = false
          /\ ak_TeamBlocked resp = false)
      /\ (ak_Disabled resp = true -> key_Status info = APIKeyDisabled)
      /\ (key_Status info = APIKeyBlocked <->
          ak_Disabled resp = false /\ ak_ApiKeyBlocked resp = true)
      /\ (key_Status info = APIKeyTeamBlocked <->
          ak_Disabled resp = false /\ ak_ApiKeyBlocked resp = false
          /\ ak_TeamBlocked resp = true)
      /\ APIKeyStatus_String (key_Status info) <> "unknown"
      /\ (forall acl, HasACL info acl = true <-> In acl (ak_Acls resp)).
Proof.
  intros resp. eexists. split; [ reflexivity | ].
  unfold IsActive, HasACL. cbn [key_Status ACLs].
  split; [ | split; [ | split; [ | split; [ | split ] ] ] ].
  - destruct (ak_Disabled resp), (ak_ApiKeyBlocked resp), (ak_TeamBlocked resp);
      cbv; split; intros H; try discriminate; try tauto; intuition discriminate.
  - intros ->. reflexivity.
  - destruct (ak_Disabled resp), (ak_ApiKeyBlocked resp), (ak_TeamBlocked resp);
      cbv; split; intros H; try discriminate; try tauto; intuition discriminate.
  - destruct (ak_Disabled resp), (ak_ApiKeyBlocked resp), (ak_TeamBlocked resp);
      cbv; split; intros H; try discriminate; try tauto; intuition discriminate.
  - destruct (ak_Disabled resp), (ak_ApiKeyBlocked resp), (ak_TeamBlocked resp);
      cbv; discriminate.
  - intros acl. apply anyACL_In.
Qed.

End SecretsFurther.

(** ** Deferred completions: a status the code does not name *)

Section DeferredUnnamed.

Variable w : World.
Variable requestID : string.
Variables pollInterval deadline : Z.

(** A poll that reports a status the code does not name leads to the
    wait, like a pending one. *)
Lemma waitLoop_unnamed (fuel k : nat) (now n : Z) :
  now < deadline ->
  pollReports w requestID k (v1.DeferredStatus_other n) ->
  waitLoop (S fuel) w requestID pollInterval deadline k now
  = match selectWait w k (now + rpcLatency w k) pollInterval with
    | (CtxDone, now2) =>
        Some ((None, option_map xaiError (FromGRPCError (Some (ctxErr w)))), now2)
    | (TimerFired, now2) =>
        waitLoop fuel w requestID pollInterval deadline (S k) now2
    end.
Proof.
  intros Hearly (resp & Hrpc & Hst). rewrite (waitLoop_poll _ _ _ _ _ _ _ Hearly).
  cbv zeta. unfold GetDeferred. rewrite Hrpc, Hst. reflexivity.
Qed.

Lemma waitLoop_unnamed_times_out :
  0 < pollInterval ->
  (forall k, exists n, pollReports w requestID k (v1.DeferredStatus_other n)) ->
  neverDone w ->
  latenciesNonNegative w ->
  forall (fuel k : nat) (now : Z),
    deadline - now <= Z.of_nat fuel ->
    exists t, waitLoop fuel w requestID pollInterval deadline k now
              = Some ((None, Some errWaitTimeout), t)
              /\ deadline <= t.
Proof.
  intros Hpos Hother Hnever Hlat fuel.
  induction fuel as [ | fuel IH ]; intros k now Hfuel.
  - exists now. split; [ apply waitLoop_expired | ]; lia.
  - destruct (Z.lt_ge_cases now deadline) as [Hearly | Hlate].
    + destruct (Hother k) as [n Hn].
      rewrite (waitLoop_unnamed _ _ _ n Hearly Hn), (selectWait_neverDone _ _ _ _ Hnever).
      apply IH. specialize (Hlat k). lia.
    + exists now. split; [ apply waitLoop_expired | ]; lia.
Qed.

End DeferredUnnamed.

(** X30.  A status the code does not name is not terminal: while the
    service keeps answering with such a status, [WaitForDeferred] goes
    on polling as for a pending completion and ends with its own
    timeout error, never with a response or a failure. *)
Theorem WaitForDeferred_unnamed_status_polls_on :
  forall (w : World) (requestID : string) (pollInterval timeout start : Z) (fuel : nat),
    0 < pollInterval ->
    (forall k, exists n, pollReports w requestID k (v1.DeferredStatus_other n)) ->
    neverDone w ->
    latenciesNonNegative w ->
    timeout <= Z.of_nat fuel ->
    exists t : Z,
      WaitForDeferred fuel w requestID pollInterval timeout start
      = Some ((None, Some errWaitTimeout), t)
      /\ start + timeout <= t.
Proof.
  intros w requestID pollInterval timeout start fuel Hpos Hother Hnever Hlat Hfuel.
  unfold WaitForDeferred.
  apply (waitLoop_unnamed_times_out w requestID pollInterval (start + timeout)
           Hpos Hother Hnever Hlat fuel 0%nat start).
  lia.
Qed.

Lemma WaitForDeferred_unnamed_status_polls_on_witness :
  exists t : Z,
    WaitForDeferred 2 unnamedForever "req_1" 1 2 0 = Some ((None, Some errWaitTimeout), t)
    /\ 0 + 2 <= t.
Proof.
  apply (WaitForDeferred_unnamed_status_polls_on unnamedForever "req_1" 1 2 0 2).
  - lia.
  - intros k. exists 0. eexists. split; reflexivity.
  - reflexivity.
  - intros k. cbn. lia.
  - cbn. lia.
Defined.
